(** * The SMB workspace database of cme ([cme/protocols/smb/database.py])

    A shallow embedding of the reconciliation and query methods of the
    [database] class, and the properties of its specification checked
    against them.

    Modelling conventions.
    - The session ([self.conn]) is the current contents of the seven tables.
      [__init__] makes it with [class_=AsyncSession].  A statement run as
      [asyncio.run(self.conn.execute(...))] acts on these contents at once.
      An [AsyncSession] has no attribute [query]: [self.conn.query] raises
      [AttributeError] before any of its arguments is looked at.  A call of
      [execute], [commit] or [close] that is not awaited builds a coroutine
      that never runs, and changes nothing.
    - A table is the list of its rows in rowid order, the order in which
      SQLite scans it.  Every table declares [id integer PRIMARY KEY], so a
      stored table has strictly increasing ids ([rowid_ordered]).
    - Strings are sequences of 8-bit characters; [upper] and [lower] act on
      the ASCII letters, as SQLite's [lower()] does and as Python's do on
      ASCII text.  Python's [str.upper] also maps letters outside ASCII; the
      properties that rest on upper-casing assume an ASCII domain
      ([Str.is_ascii]).
    - A nullable column is an [option]; [None] is SQL [NULL] and Python
      [None].
    - An integer is one of 64 bits, which SQLite stores; a larger Python
      integer cannot be bound as a parameter ([bindable]). *)

From Stdlib Require Import ZArith List String Ascii Bool Lia DecimalString.
Import ListNotations.
Local Open Scope string_scope.
Local Open Scope Z_scope.

Set Implicit Arguments.

(** ** Strings *)

Module Str.

Definition is_lower (c : ascii) : bool :=
  let n := N_of_ascii c in ((97 <=? n) && (n <=? 122))%N.

Definition is_upper (c : ascii) : bool :=
  let n := N_of_ascii c in ((65 <=? n) && (n <=? 90))%N.

Definition upper_char (c : ascii) : ascii :=
  if is_lower c then ascii_of_N (N_of_ascii c - 32) else c.

Definition lower_char (c : ascii) : ascii :=
  if is_upper c then ascii_of_N (N_of_ascii c + 32) else c.

Fixpoint map (f : ascii -> ascii) (s : string) : string :=
  match s with
  | EmptyString => EmptyString
  | String c s' => String (f c) (map f s')
  end.

(** [str.upper()] and [str.lower()]; also SQL [lower()]. *)
Definition upper : string -> string := map upper_char.
Definition lower : string -> string := map lower_char.

(** [s.split(sep)] for a one-character separator: never empty. *)
Fixpoint split (sep : ascii) (s : string) : list string :=
  match s with
  | EmptyString => [EmptyString]
  | String c s' =>
      if Ascii.eqb c sep then EmptyString :: split sep s'
      else match split sep s' with
           | [] => [String c EmptyString]
           | w :: ws => String c w :: ws
           end
  end.

(** [c in s] for a one-character [c]. *)
Fixpoint contains_char (c : ascii) (s : string) : bool :=
  match s with
  | EmptyString => false
  | String d s' => Ascii.eqb c d || contains_char c s'
  end.

(** The text before the first occurrence of [sep] (all of [s] when there
    is none). *)
Fixpoint before_first (sep : ascii) (s : string) : string :=
  match s with
  | EmptyString => EmptyString
  | String c s' => if Ascii.eqb c sep then EmptyString
                   else String c (before_first sep s')
  end.

(** SQLite's [LIKE]: [%] matches any run of characters, [_] any one
    character, every other character matches itself without regard to the
    case of ASCII letters. *)
Fixpoint like (pattern s : string) : bool :=
  match pattern with
  | EmptyString => match s with EmptyString => true | _ => false end
  | String p pattern' =>
      if Ascii.eqb p "%" then
        (fix skip (s : string) : bool :=
           like pattern' s
           || match s with
              | EmptyString => false
              | String _ s' => skip s'
              end) s
      else
        match s with
        | EmptyString => false
        | String c s' =>
            (Ascii.eqb p "_" || Ascii.eqb (lower_char p) (lower_char c))
            && like pattern' s'
        end
  end.

(** [needle] occurs in [s], the case of ASCII letters apart: what "contains
    the term case-insensitively" says. *)
Fixpoint starts_with_nocase (prefix s : string) : bool :=
  match prefix, s with
  | EmptyString, _ => true
  | String _ _, EmptyString => false
  | String p prefix', String c s' =>
      Ascii.eqb (lower_char p) (lower_char c) && starts_with_nocase prefix' s'
  end.

Fixpoint contains_nocase (needle s : string) : bool :=
  starts_with_nocase needle s
  || match s with
     | EmptyString => false
     | String _ s' => contains_nocase needle s'
     end.

(** The two strings are equal, the case of ASCII letters apart. *)
Fixpoint eq_nocase (a b : string) : bool :=
  match a, b with
  | EmptyString, EmptyString => true
  | String x a', String y b' =>
      Ascii.eqb (lower_char x) (lower_char y) && eq_nocase a' b'
  | _, _ => false
  end.

(** [s] ends with [suffix], the case of ASCII letters apart. *)
Fixpoint ends_with_nocase (suffix s : string) : bool :=
  eq_nocase suffix s
  || match s with
     | EmptyString => false
     | String _ s' => ends_with_nocase suffix s'
     end.

(** The text holds neither of the wildcards of [LIKE]. *)
Definition no_wildcard (s : string) : bool :=
  negb (contains_char "%" s) && negb (contains_char "_" s).

(** The text holds ASCII characters only. *)
Fixpoint is_ascii (s : string) : bool :=
  match s with
  | EmptyString => true
  | String c s' => (N_of_ascii c <? 128)%N && is_ascii s'
  end.

(** *** Text read as a number

    How SQLite reads a text operand that meets a numeric column: white
    space, a sign, digits with at most one point among them, an exponent,
    white space.  There is a digit before the exponent, and one in it; text
    with anything else in it is no number and stays text. *)

Definition is_space (c : ascii) : bool :=
  let n := N_of_ascii c in ((n =? 32) || ((9 <=? n) && (n <=? 13)))%N.

Definition digit_of (c : ascii) : option Z :=
  let n := N_of_ascii c in
  if ((48 <=? n) && (n <=? 57))%N then Some (Z.of_N (n - 48)) else None.

Fixpoint skip_spaces (s : string) : string :=
  match s with
  | EmptyString => s
  | String c s' => if is_space c then skip_spaces s' else s
  end.

(** A run of digits read onto [acc]: the number read, how many digits it
    had, and the text after it. *)
Fixpoint read_digits (acc : Z) (n : nat) (s : string) : Z * nat * string :=
  match s with
  | EmptyString => (acc, n, s)
  | String c s' =>
      match digit_of c with
      | Some d => read_digits (acc * 10 + d) (S n) s'
      | None => (acc, n, s)
      end
  end.

(** An optional sign: whether it is a minus, and the text after it. *)
Definition read_sign (s : string) : bool * string :=
  match s with
  | EmptyString => (false, s)
  | String c s' =>
      if Ascii.eqb c "-" then (true, s')
      else if Ascii.eqb c "+" then (false, s')
      else (false, s)
  end.

(** The number [significand * 10 ^ exponent]; [is_real] when it was written
    with a point or an exponent. *)
Record number : Type :=
  Number { significand : Z; exponent : Z; is_real : bool }.

(** The digits after a point, when the text goes on with one. *)
Definition read_fraction (m : Z) (s : string) : Z * nat * string * bool :=
  match s with
  | EmptyString => (m, 0%nat, s, false)
  | String c s' =>
      if Ascii.eqb c "." then (read_digits m 0 s', true)
      else (m, 0%nat, s, false)
  end.

(** The exponent, when the text goes on with one: its value, whether it
    has a digit, the text after it, and whether there was one. *)
Definition read_exponent (s : string) : Z * bool * string * bool :=
  match s with
  | EmptyString => (0, true, s, false)
  | String c s' =>
      if Ascii.eqb c "e" || Ascii.eqb c "E" then
        let (negative, digits) := read_sign s' in
        let '(e, k, rest) := read_digits 0 0 digits in
        ((if negative : bool then - e else e), (0 <? k)%nat, rest, true)
      else (0, true, s, false)
  end.

Definition number_of (s : string) : option number :=
  let (negative, s) := read_sign (skip_spaces s) in
  let '(m, whole, s) := read_digits 0 0 s in
  let '(m, fraction, s, point) := read_fraction m s in
  let '(e, e_valid, s, scaled) := read_exponent s in
  match skip_spaces s with
  | EmptyString =>
      if (0 <? whole + fraction)%nat && e_valid then
        Some (Number (if negative : bool then - m else m)
                (e - Z.of_nat fraction) (point || scaled))
      else None
  | String _ _ => None
  end.

(** The number is the integer [i]. *)
Definition number_is (i : Z) (x : number) : bool :=
  if 0 <=? exponent x then i =? significand x * 10 ^ exponent x
  else significand x =? i * 10 ^ (- exponent x).

End Str.

(** ** Python values that reach the database untyped *)

Inductive value : Type :=
| VNone
| VInt (n : Z)
| VStr (s : string).

(** Truth value of a Python object in [if x]. *)
Definition truthy (v : value) : bool :=
  match v with
  | VNone => false
  | VInt n => negb (n =? 0)
  | VStr s => negb (String.eqb s "")
  end.

Definition truthy_int (n : option Z) : bool :=
  match n with Some n => negb (n =? 0) | None => false end.

Definition truthy_str (s : option string) : bool :=
  match s with Some s => negb (String.eqb s "") | None => false end.

(** [str(v)], as an f-string formats it. *)
Definition str (v : value) : string :=
  match v with
  | VNone => "None"
  | VInt n => NilZero.string_of_int (Z.to_int n)
  | VStr s => s
  end.

Definition of_int (n : option Z) : value :=
  match n with Some n => VInt n | None => VNone end.

(** The short domain name: [domain.split('.')[0].upper()]. *)
Definition normalize_domain (domain : string) : string :=
  Str.upper (nth 0 (Str.split "." domain) "").

(** An argument that is not [None] replaces the stored value. *)
Definition or_else {A} (new old : option A) : option A :=
  match new with Some _ => new | None => old end.

(** ** Rows and tables *)

Record row (D : Type) : Type := Row { id : Z; cols : D }.

Definition table (D : Type) : Type := list (row D).

Definition ids {D} (t : table D) : list Z := List.map (@id D) t.

Fixpoint increasing (l : list Z) : bool :=
  match l with
  | [] => true
  | x :: l' => forallb (Z.ltb x) l' && increasing l'
  end.

(** The primary-key invariant of a stored table. *)
Definition rowid_ordered {D} (t : table D) : Prop := increasing (ids t) = true.

(** The rowid SQLite gives to a row inserted without one: one more than the
    largest in use, 1 in an empty table. *)
Definition next_rowid {D} (t : table D) : Z :=
  match ids t with
  | [] => 1
  | i :: l => fold_left Z.max l i + 1
  end.

Fixpoint insert_by_rowid {D} (r : row D) (t : table D) : table D :=
  match t with
  | [] => [r]
  | x :: t' => if id r <? id x then r :: x :: t'
               else x :: insert_by_rowid r t'
  end.

(** [INSERT] of a row without an id: it gets the next rowid. *)
Definition insert_row {D} (d : D) (t : table D) : table D :=
  (t ++ [Row (next_rowid t) d])%list.

(** [INSERT] of one parameter set into [computers].  With an id, a row
    already holding that id is deleted first: the table declares
    [PRIMARY KEY ON CONFLICT REPLACE]. *)
Definition insert_or_replace {D} (params : option Z * D) (t : table D)
  : table D :=
  match fst params with
  | None => insert_row (snd params) t
  | Some i =>
      insert_by_rowid (Row i (snd params))
        (List.filter (fun x => negb (id x =? i)) t)
  end.

(** [UPDATE t SET ...] without a [WHERE]: every row is rewritten. *)
Definition update_all {D} (set : D -> D) (t : table D) : table D :=
  List.map (fun r => Row (id r) (set (cols r))) t.

(** ** Select statements

    A [select] is an immutable value: [filter] returns a new statement and
    leaves the one it is called on as it was. *)

Module Query.

Record t (D : Type) : Type :=
  Select { source : table D; criteria : list (row D -> bool) }.

Definition select {D} (tbl : table D) : t D := Select tbl [].

(** [q.filter(c1, ..., cn)] *)
Definition filter {D} (q : t D) (cs : list (row D -> bool)) : t D :=
  Select (source q) (criteria q ++ cs)%list.

(** [execute(q).all()] *)
Definition all {D} (q : t D) : list (row D) :=
  List.filter (fun r => forallb (fun c => c r) (criteria q)) (source q).

(** [execute(q).first()] *)
Definition first {D} (q : t D) : option (row D) := hd_error (all q).

End Query.

(** ** Column comparisons, as SQLAlchemy renders them for SQLite *)

(** [column == literal] on a text column: [IS NULL] for [None]. *)
Definition sql_eq (column literal : option string) : bool :=
  match literal, column with
  | None, None => true
  | Some a, Some c => String.eqb c a
  | _, _ => false
  end.

(** [func.lower(column) == func.lower(literal)]: unknown when either side is
    [NULL]. *)
Definition sql_lower_eq (column literal : option string) : bool :=
  match column, literal with
  | Some c, Some a => String.eqb (Str.lower c) (Str.lower a)
  | _, _ => false
  end.

(** [column.like(pattern)] *)
Definition sql_like (column : option string) (pattern : string) : bool :=
  match column with
  | Some c => Str.like pattern c
  | None => false
  end.

(** [id == v] on the integer primary key.  The key is never [NULL].  A text
    operand takes the numeric affinity of the column: text that reads as a
    number is compared as that number (the texts [ 1], [+1], [1.0] and
    [1e0] all equal the id 1), and any other text equals no id.  The number
    is compared by its exact value.  SQLite takes text written as a real
    through a double first, which gives the same answer up to 15
    significant digits; the properties below leave text written as a real
    out ([id_operand_exact]). *)
Definition sql_id_eq (i : Z) (v : value) : bool :=
  match v with
  | VNone => false
  | VInt n => i =? n
  | VStr s => match Str.number_of s with
              | Some x => Str.number_is i x
              | None => false
              end
  end.

(** A value the driver can bind as a parameter: a Python integer outside
    64 bits is refused. *)
Definition bindable (v : value) : bool :=
  match v with
  | VInt n => (- 2 ^ 63 <=? n) && (n <? 2 ^ 63)
  | _ => true
  end.

(** The operands [sql_id_eq] compares as SQLite does whatever their
    length: [None], an integer of 64 bits, text that is no number, and text
    that is an integer in digits. *)
Definition id_operand_exact (v : value) : bool :=
  match v with
  | VStr s => match Str.number_of s with
              | Some x => negb (Str.is_real x)
              | None => true
              end
  | _ => bindable v
  end.

(** [column == literal] on a nullable integer column. *)
Definition sql_eq_int (column literal : option Z) : bool :=
  match literal, column with
  | None, None => true
  | Some a, Some c => c =? a
  | _, _ => false
  end.

(** [column == 1] on a boolean column. *)
Definition sql_is_true (column : option bool) : bool :=
  match column with Some true => true | _ => false end.

(** ** The schema ([db_schema]) *)

Module Computer.
Record data : Type := Data {
  ip : option string;
  hostname : option string;
  domain : option string;
  os : option string;
  dc : option bool;
  smbv1 : option bool;
  signing : option bool;
  spooler : option bool;
  zerologon : option bool;
  petitpotam : option bool }.

Definition set_ip v d :=
  Data v (hostname d) (domain d) (os d) (dc d) (smbv1 d) (signing d)
    (spooler d) (zerologon d) (petitpotam d).
Definition set_hostname v d :=
  Data (ip d) v (domain d) (os d) (dc d) (smbv1 d) (signing d) (spooler d)
    (zerologon d) (petitpotam d).
Definition set_domain v d :=
  Data (ip d) (hostname d) v (os d) (dc d) (smbv1 d) (signing d)
    (spooler d) (zerologon d) (petitpotam d).
Definition set_os v d :=
  Data (ip d) (hostname d) (domain d) v (dc d) (smbv1 d) (signing d)
    (spooler d) (zerologon d) (petitpotam d).
Definition set_dc v d :=
  Data (ip d) (hostname d) (domain d) (os d) v (smbv1 d) (signing d)
    (spooler d) (zerologon d) (petitpotam d).
Definition set_smbv1 v d :=
  Data (ip d) (hostname d) (domain d) (os d) (dc d) v (signing d)
    (spooler d) (zerologon d) (petitpotam d).
Definition set_signing v d :=
  Data (ip d) (hostname d) (domain d) (os d) (dc d) (smbv1 d) v (spooler d)
    (zerologon d) (petitpotam d).
Definition set_spooler v d :=
  Data (ip d) (hostname d) (domain d) (os d) (dc d) (smbv1 d) (signing d) v
    (zerologon d) (petitpotam d).
Definition set_zerologon v d :=
  Data (ip d) (hostname d) (domain d) (os d) (dc d) (smbv1 d) (signing d)
    (spooler d) v (petitpotam d).
Definition set_petitpotam v d :=
  Data (ip d) (hostname d) (domain d) (os d) (dc d) (smbv1 d) (signing d)
    (spooler d) (zerologon d) v.
End Computer.

Module User.
Record data : Type := Data {
  domain : option string;
  username : option string;
  password : option string;
  credtype : option string;
  pillaged_from_computerid : value }.
End User.

Module Group.
Record data : Type := Data {
  domain : option string;
  name : option string;
  member_count_ad : option Z;
  last_query_time : option string }.
End Group.

Module Relation.
(** [admin_relations] and [loggedin_relations]: (userid, computerid);
    [group_relations]: (userid, groupid). *)
Record data : Type := Data { userid : option Z; target : option Z }.
End Relation.

Module Share.
Record data : Type := Data {
  computerid : value;
  userid : option Z;
  name : option string;
  remark : option string;
  read : option bool;
  write : option bool }.
End Share.

Record database : Type := Database {
  ComputersTable : table Computer.data;
  UsersTable : table User.data;
  GroupsTable : table Group.data;
  SharesTable : table Share.data;
  AdminRelationsTable : table Relation.data;
  GroupRelationsTable : table Relation.data;
  LoggedinRelationsTable : table Relation.data }.

Definition set_ComputersTable (t : table Computer.data) (db : database) :=
  Database t (UsersTable db) (GroupsTable db) (SharesTable db)
    (AdminRelationsTable db) (GroupRelationsTable db)
    (LoggedinRelationsTable db).

Definition set_UsersTable (t : table User.data) (db : database) :=
  Database (ComputersTable db) t (GroupsTable db) (SharesTable db)
    (AdminRelationsTable db) (GroupRelationsTable db)
    (LoggedinRelationsTable db).

Definition set_GroupsTable (t : table Group.data) (db : database) :=
  Database (ComputersTable db) (UsersTable db) t (SharesTable db)
    (AdminRelationsTable db) (GroupRelationsTable db)
    (LoggedinRelationsTable db).

Definition set_AdminRelationsTable (t : table Relation.data) (db : database) :=
  Database (ComputersTable db) (UsersTable db) (GroupsTable db)
    (SharesTable db) t (GroupRelationsTable db) (LoggedinRelationsTable db).

Definition set_GroupRelationsTable (t : table Relation.data) (db : database) :=
  Database (ComputersTable db) (UsersTable db) (GroupsTable db)
    (SharesTable db) (AdminRelationsTable db) t (LoggedinRelationsTable db).

Definition empty_database : database := Database [] [] [] [] [] [] [].

(** ** Shares *)

(** [get_shares_by_access]: each [q.filter(...)] builds a statement that is
    dropped; the statement executed is the unfiltered [q]. *)
Definition get_shares_by_access (db : database) (permissions : string)
    (share_id : option Z) : list (row Share.data) :=
  let permissions := Str.lower permissions in
  let q := Query.select (SharesTable db) in
  let _ :=
    if truthy_int share_id then
      Some (Query.filter q [fun s => sql_id_eq (id s) (of_int share_id)])
    else None in
  let _ :=
    if Str.contains_char "r" permissions then
      Some (Query.filter q [fun s => sql_is_true (Share.read (cols s))])
    else None in
  let _ :=
    if Str.contains_char "w" permissions then
      Some (Query.filter q [fun s => sql_is_true (Share.write (cols s))])
    else None in
  Query.all q.

(** ** Hosts *)

(** The body of the update loop of [add_computer]: [computer_data] starts
    as [host._asdict()] and takes each argument that is not [None].  Here
    [domain] is the normalized one. *)
Definition computer_data_of (host : row Computer.data)
    (ip hostname domain os : option string)
    (smbv1 signing spooler zerologon petitpotam dc : option bool)
  : option Z * Computer.data :=
  let computer_data := cols host in
  let computer_data := match ip with
    | Some _ => Computer.set_ip ip computer_data
    | None => computer_data end in
  let computer_data := match hostname with
    | Some _ => Computer.set_hostname hostname computer_data
    | None => computer_data end in
  let computer_data := match domain with
    | Some _ => Computer.set_domain domain computer_data
    | None => computer_data end in
  let computer_data := match os with
    | Some _ => Computer.set_os os computer_data
    | None => computer_data end in
  let computer_data := match smbv1 with
    | Some _ => Computer.set_smbv1 smbv1 computer_data
    | None => computer_data end in
  let computer_data := match signing with
    | Some _ => Computer.set_signing signing computer_data
    | None => computer_data end in
  let computer_data := match spooler with
    | Some _ => Computer.set_spooler spooler computer_data
    | None => computer_data end in
  let computer_data := match zerologon with
    | Some _ => Computer.set_zerologon zerologon computer_data
    | None => computer_data end in
  let computer_data := match petitpotam with
    | Some _ => Computer.set_petitpotam petitpotam computer_data
    | None => computer_data end in
  let computer_data := match dc with
    | Some _ => Computer.set_dc dc computer_data
    | None => computer_data end in
  (Some (id host), computer_data).

(** The select of [add_computer]. *)
Definition hosts_with_ip (db : database) (ip : option string)
  : list (row Computer.data) :=
  Query.all
    (Query.filter (Query.select (ComputersTable db))
       [fun c => sql_eq (Computer.ip (cols c)) ip]).

(** [add_computer]; [domain] is a [str] (the first statement calls
    [domain.split]). *)
Definition add_computer (db : database)
    (ip hostname : option string) (domain : string) (os : option string)
    (smbv1 signing spooler zerologon petitpotam dc : option bool)
  : database :=
  let domain := Some (normalize_domain domain) in
  let results := hosts_with_ip db ip in
  let host := Computer.Data ip hostname domain os dc smbv1 signing spooler
                zerologon petitpotam in
  let update_hosts :=
    match results with
    | [] => [(None, host)]
    | _ =>
        List.map
          (fun host =>
             computer_data_of host ip hostname domain os smbv1 signing
               spooler zerologon petitpotam dc)
          results
    end in
  set_ComputersTable
    (fold_left (fun t params => insert_or_replace params t)
       update_hosts (ComputersTable db))
    db.

Definition value_eqb (a b : value) : bool :=
  match a, b with
  | VNone, VNone => true
  | VInt n, VInt m => n =? m
  | VStr s, VStr u => String.eqb s u
  | _, _ => false
  end.

(** What a read accessor hands back: the row of [.first()] or the list of
    [.all()]. *)
Inductive fetched (D : Type) : Type :=
| One (r : option (row D))
| Many (rs : list (row D)).

(** ** Groups *)

(** [is_group_valid] *)
Definition is_group_valid (db : database) (group_id : value) : bool :=
  let results :=
    Query.first (Query.filter (Query.select (GroupsTable db))
                   [fun g => sql_id_eq (id g) group_id]) in
  match results with Some _ => true | None => false end.

(** ** Statements that write, and what [execute] returns for them *)

Inductive exn : Type :=
| ResourceClosedError
| CompileError
| TypeError
| UnboundLocalError
| AttributeError
| DBAPIError.

Inductive outcome (A : Type) : Type :=
| Returned (a : A)
| Raised (e : exn).
Arguments Raised {A} e.

Module Result.
(** The [CursorResult] of an executed statement.  An [INSERT] or [UPDATE]
    without [RETURNING] yields one that returns no rows. *)
Record t (D : Type) : Type :=
  Make { returns_rows : bool; rows : list (row D); rowcount : nat }.

Definition dml (D : Type) (n : nat) : t D := Make false [] n.
End Result.

Definition Session (A : Type) : Type := database -> database * outcome A.

Definition ret {A} (a : A) : Session A := fun db => (db, Returned a).

Definition raise {A} (e : exn) : Session A := fun db => (db, Raised e).

Definition bind {A B} (m : Session A) (k : A -> Session B) : Session B :=
  fun db =>
    match m db with
    | (db', Returned a) => k a db'
    | (db', Raised e) => (db', Raised e)
    end.

Notation "x <- m ;; k" := (bind m (fun x => k))
  (at level 61, m at next level, right associativity).

Fixpoint for_each {A S} (xs : list A) (body : A -> S -> Session S) (s : S)
  : Session S :=
  match xs with
  | [] => ret s
  | x :: xs' => s' <- body x s ;; for_each xs' body s'
  end.

(** [result.first()]: a result that returns no rows is closed, and fetching
    from it raises. *)
Definition first {D} (res : Result.t D) : Session (option (row D)) :=
  if Result.returns_rows res then ret (hd_error (Result.rows res))
  else raise ResourceClosedError.

(** [results[0]] on what [first()] gave. *)
Definition getitem0 {D} (r : option (row D)) : Session Z :=
  match r with
  | Some r => ret (id r)
  | None => raise TypeError
  end.

(** ** What the session lacks *)

(** [self.conn.query(...)]: the session is an [AsyncSession], and the
    lookup of [query] on it raises.  The table, the filters and the fetch
    that follow in the source are never reached; the methods below carry
    them as the source writes them. *)
Definition conn_query {D} (tbl : database -> table D) : Session (Query.t D) :=
  raise AttributeError.

(** [q.delete()] on such a query: the rows it selects leave the table. *)
Definition query_delete {D} (q : Query.t D)
    (set_table : table D -> database -> database) : Session unit :=
  fun db =>
    (set_table
       (List.filter
          (fun r => negb (forallb (fun c => c r) (Query.criteria q)))
          (Query.source q)) db,
     Returned tt).

(** What [self.conn.execute(...)] gives when it is called without
    [asyncio.run]: a coroutine, which nothing ever runs.  The statement
    passed to it reaches no table. *)
Inductive coroutine : Type := Coroutine.

Definition conn_execute : Session coroutine := ret Coroutine.

(** ** Reading hosts *)

(** [is_computer_valid] *)
Definition is_computer_valid (host_id : value) : Session bool :=
  computers <- conn_query ComputersTable ;;
  let results :=
    Query.all (Query.filter computers [fun c => sql_id_eq (id c) host_id]) in
  ret (0 <? List.length results)%nat.

(** [get_computers] *)
Definition get_computers (filter_term : value) (domain : option string)
  : Session (fetched Computer.data) :=
  valid <- is_computer_valid filter_term ;;
  if valid : bool then
    computers <- conn_query ComputersTable ;;
    ret (One (Query.first
                (Query.filter computers
                   [fun c => sql_id_eq (id c) filter_term])))
  else if value_eqb filter_term (VStr "dc") then
    if truthy_str domain then
      computers <- conn_query ComputersTable ;;
      ret (Many (Query.all
                   (Query.filter computers
                      [fun c => sql_is_true (Computer.dc (cols c));
                       fun c => sql_lower_eq (Computer.domain (cols c))
                                  domain])))
    else
      computers <- conn_query ComputersTable ;;
      ret (Many (Query.all
                   (Query.filter computers
                      [fun c => sql_is_true (Computer.dc (cols c))])))
  else if truthy filter_term && negb (value_eqb filter_term (VStr "")) then
    computers <- conn_query ComputersTable ;;
    ret (Many (Query.all
                 (Query.filter computers
                    [fun c =>
                       sql_like (option_map Str.lower (Computer.ip (cols c)))
                         (Str.lower ("%" ++ str filter_term ++ "%"))
                       || sql_like
                            (option_map Str.lower
                               (Computer.hostname (cols c)))
                            (Str.lower ("%" ++ str filter_term))])))
  else
    computers <- conn_query ComputersTable ;;
    ret (Many (Query.all computers)).

(** ** Credentials *)

Module CredentialData.
(** The dict [credential_data]: a key is present when its field is
    [Some]. *)
Record t : Type := Make {
  credtype : option string;
  domain : option string;
  username : option string;
  password : option string;
  groupid : option Z;
  pillaged_from : option Z }.

Definition set (cd : t) (u : User.data) : User.data :=
  User.Data (or_else (domain cd) (User.domain u))
    (or_else (username cd) (User.username u))
    (or_else (password cd) (User.password u))
    (or_else (credtype cd) (User.credtype u))
    (User.pillaged_from_computerid u).
End CredentialData.

(** [execute(insert(self.UsersTable).values(user_data))] *)
Definition insert_user (user_data : User.data)
  : Session (Result.t User.data) :=
  fun db => (set_UsersTable (insert_row user_data (UsersTable db)) db,
             Returned (Result.dml _ 1)).

(** [execute(update(self.UsersTable).values(credential_data))]: no [where].
    The keys [groupid] and [pillaged_from] name no column of [users]; the
    statement does not compile when one is present. *)
Definition update_users (credential_data : CredentialData.t)
  : Session (Result.t User.data) :=
  fun db =>
    match CredentialData.groupid credential_data,
          CredentialData.pillaged_from credential_data with
    | None, None =>
        (set_UsersTable
           (update_all (CredentialData.set credential_data) (UsersTable db))
           db,
         Returned (Result.dml _ (List.length (UsersTable db))))
    | _, _ => (db, Raised CompileError)
    end.

(** [execute(insert(self.GroupRelationsTable).values(gr_data))] *)
Definition insert_group_relation (gr_data : Relation.data)
  : Session (Result.t Relation.data) :=
  fun db =>
    (set_GroupRelationsTable (insert_row gr_data (GroupRelationsTable db)) db,
     Returned (Result.dml _ 1)).

(** [execute(update(self.GroupRelationsTable).values(gr_data))]: no
    [where]. *)
Definition update_group_relations (gr_data : Relation.data)
  : Session (Result.t Relation.data) :=
  fun db =>
    (set_GroupRelationsTable
       (update_all (fun _ => gr_data) (GroupRelationsTable db)) db,
     Returned (Result.dml _ (List.length (GroupRelationsTable db)))).

(** [get_group_relations]; with neither argument [q] is never bound. *)
Definition get_group_relations (user_id group_id : option Z)
  : Session (list (row Relation.data)) :=
  fun db =>
    let relations := Query.select (GroupRelationsTable db) in
    if truthy_int user_id && truthy_int group_id then
      (db, Returned
             (Query.all
                (Query.filter relations
                   [fun r => sql_id_eq (id r) (of_int user_id);
                    fun r => sql_eq_int (Relation.target (cols r)) group_id])))
    else if truthy_int user_id then
      (db, Returned
             (Query.all
                (Query.filter relations
                   [fun r => sql_id_eq (id r) (of_int user_id)])))
    else if truthy_int group_id then
      (db, Returned
             (Query.all
                (Query.filter relations
                   [fun r => sql_eq_int (Relation.target (cols r)) group_id])))
    else (db, Raised UnboundLocalError).

(** [not user[3] and not user[4] and not user[5]] *)
Definition bare (user : row User.data) : bool :=
  negb (truthy_str (User.password (cols user)))
  && negb (truthy_str (User.credtype (cols user)))
  && negb (truthy (User.pillaged_from_computerid (cols user))).

(** The select of [add_credential]. *)
Definition matching_credentials (db : database)
    (domain username credtype : option string) : list (row User.data) :=
  Query.all
    (Query.filter (Query.select (UsersTable db))
       [fun u => sql_lower_eq (User.domain (cols u)) domain;
        fun u => sql_lower_eq (User.username (cols u)) username;
        fun u => sql_lower_eq (User.credtype (cols u)) credtype]).

(** The body of the update loop of [add_credential], run for each match;
    [user_rowid] is the variable the loop may rebind. *)
Definition complete_placeholder (credential_data : CredentialData.t)
    (group_id : option Z) (user : row User.data) (user_rowid : option Z)
  : Session (option Z) :=
  if bare user then
    res <- update_users credential_data ;;
    results <- first res ;;
    user_rowid <- getitem0 results ;;
    missing <- (if truthy_int group_id then
                  relations <- get_group_relations (Some user_rowid)
                                 group_id ;;
                  ret (Nat.eqb (List.length relations) 0)
                else ret false) ;;
    _ <- (if missing : bool then
            _ <- update_group_relations
                   (Relation.Data (Some user_rowid) group_id) ;;
            ret tt
          else ret tt) ;;
    ret (Some user_rowid)
  else ret user_rowid.

(** [add_credential] *)
Definition add_credential (db : database) (credtype : option string)
    (domain : string) (username password : option string)
    (group_id pillaged_from : option Z) : database * outcome (option Z) :=
  let domain := Some (normalize_domain domain) in
  let user_rowid : option Z := None in
  if truthy_int group_id && negb (is_group_valid db (of_int group_id)) then
    (db, Returned None)
  else
    (rejected <- (if truthy_int pillaged_from then
                    valid <- is_computer_valid (of_int pillaged_from) ;;
                    ret (negb valid)
                  else ret false) ;;
     if rejected : bool then ret None
     else
       fun db =>
         let credential_data :=
           CredentialData.Make credtype domain username password group_id
             pillaged_from in
         let results := matching_credentials db domain username credtype in
         match results with
         | [] =>
             let user_data :=
               User.Data domain username password credtype
                 (of_int pillaged_from) in
             (res <- insert_user user_data ;;
              results <- first res ;;
              user_rowid <- getitem0 results ;;
              _ <- (if truthy_int group_id then
                      _ <- insert_group_relation
                             (Relation.Data (Some user_rowid) group_id) ;;
                      ret tt
                    else ret tt) ;;
              ret (Some user_rowid)) db
         | _ =>
             for_each results (complete_placeholder credential_data group_id)
               user_rowid db
         end) db.

(** ** Group upsert *)

(** What [add_group] binds to [cid]: the id read from the first match, or
    the coroutine of an [execute]. *)
Inductive cid_value : Type :=
| CidInt (n : Z)
| CidCoroutine (c : coroutine).

(** [add_group].  The lookup is the first statement after the
    normalization.  Past it, [group_data] goes into an [update] for each
    match, or into an [insert], and each is handed to an [execute] that is
    not awaited. *)
Definition add_group (domain : string) (name : option string)
    (member_count_ad : option Z) : Session cid_value :=
  let domain := Some (normalize_domain domain) in
  groups <- conn_query GroupsTable ;;
  let results :=
    Query.all
      (Query.filter groups
         [fun g => sql_lower_eq (Group.domain (cols g)) domain;
          fun g => sql_lower_eq (Group.name (cols g)) name]) in
  match results with
  | first_match :: _ =>
      for_each results
        (fun (group : row Group.data) (cid : cid_value) =>
           cid <- conn_execute ;; ret (CidCoroutine cid))
        (CidInt (id first_match))
  | [] => cid <- conn_execute ;; ret (CidCoroutine cid)
  end.

(** ** Admin links *)

(** The select in the loop of [add_admin_user]: the links already stored
    for the pair. *)
Definition admin_links (db : database) (user_id host_id : Z)
  : list (row Relation.data) :=
  Query.all
    (Query.filter (Query.select (AdminRelationsTable db))
       [fun a => sql_eq_int (Relation.userid (cols a)) (Some user_id);
        fun a => sql_eq_int (Relation.target (cols a)) (Some host_id)]).

(** The body of the loop of [add_admin_user]: insert the link unless the
    select finds one. *)
Definition add_admin_link (db : database) (user_id host_id : Z) : database :=
  let links := admin_links db user_id host_id in
  match links with
  | [] =>
      let link := Relation.Data (Some user_id) (Some host_id) in
      set_AdminRelationsTable (insert_row link (AdminRelationsTable db)) db
  | _ => db
  end.

(** The credentials [add_admin_user] resolves. *)
Definition admin_users (db : database) (credtype : option string)
    (domain : string) (username password : option string)
    (user_id : option Z) : list (row User.data) :=
  let domain := Some (normalize_domain domain) in
  if truthy_int user_id then
    Query.all
      (Query.filter (Query.select (UsersTable db))
         [fun u => sql_id_eq (id u) (of_int user_id)])
  else
    Query.all
      (Query.filter (Query.select (UsersTable db))
         [fun u => sql_eq (User.credtype (cols u)) credtype;
          fun u => sql_lower_eq (User.domain (cols u)) domain;
          fun u => sql_lower_eq (User.username (cols u)) username;
          fun u => sql_eq (User.password (cols u)) password]).

(** The hosts [add_admin_user] resolves. *)
Definition admin_hosts (db : database) (host : string)
  : list (row Computer.data) :=
  Query.all
    (Query.filter (Query.select (ComputersTable db))
       [fun c => sql_like (Computer.ip (cols c))
                   (Str.lower ("%" ++ host ++ "%"))]).

(** [add_admin_user]: the loop runs over [zip(users, hosts)]. *)
Definition add_admin_user (db : database) (credtype : option string)
    (domain : string) (username password : option string) (host : string)
    (user_id : option Z) : database :=
  let users := admin_users db credtype domain username password user_id in
  let hosts := admin_hosts db host in
  fold_left
    (fun (db : database) (pair : row User.data * row Computer.data) =>
       add_admin_link db (id (fst pair)) (id (snd pair)))
    (combine users hosts) db.

(** The loop of [add_admin_user], over the ids of the pairs it visits. *)
Definition link_pairs (db : database) (pairs : list (Z * Z)) : database :=
  fold_left (fun db pair => add_admin_link db (fst pair) (snd pair)) pairs db.

(** The pairs [zip(users, hosts)] visits, by id. *)
Definition zipped_ids (users : list (row User.data))
    (hosts : list (row Computer.data)) : list (Z * Z) :=
  combine (List.map (@id User.data) users) (List.map (@id Computer.data) hosts).

(** ** The host merge, column by column *)

Section MergedColumns.
Variables (ip hostname : option string) (domain : string)
          (os : option string)
          (smbv1 signing spooler zerologon petitpotam dc : option bool).

(** The columns the update loop writes for a matched row, column by
    column. *)
Definition merged_columns (old : Computer.data) : Computer.data :=
  Computer.Data
    (or_else ip (Computer.ip old))
    (or_else hostname (Computer.hostname old))
    (Some (normalize_domain domain))
    (or_else os (Computer.os old))
    (or_else dc (Computer.dc old))
    (or_else smbv1 (Computer.smbv1 old))
    (or_else signing (Computer.signing old))
    (or_else spooler (Computer.spooler old))
    (or_else zerologon (Computer.zerologon old))
    (or_else petitpotam (Computer.petitpotam old)).

(** The row is one the select of [add_computer] finds. *)
Definition selected (c : row Computer.data) : bool :=
  sql_eq (Computer.ip (cols c)) ip.

(** A selected row takes the merged columns and keeps its id; any other
    row stays as it is. *)
Definition merged (c : row Computer.data) : row Computer.data :=
  if selected c then Row (id c) (merged_columns (cols c)) else c.

End MergedColumns.

(** ** States used in the examples *)

Definition with_computers (t : table Computer.data) : database :=
  set_ComputersTable t empty_database.

Definition with_users (t : table User.data) : database :=
  set_UsersTable t empty_database.

(** A host that reports nothing but its address. *)
Definition host_at (address : string) : Computer.data :=
  Computer.Data (Some address) None None None None None None None None None.

(** Two rows for the same address: the schema puts no constraint on
    [ip]. *)
Definition twin_hosts : database :=
  with_computers [Row 1 (host_at "10.0.0.5"); Row 2 (host_at "10.0.0.5")].

(** A bare placeholder for [username]: a row with an empty secret, type and
    source. *)
Definition placeholder (domain username : string) : User.data :=
  User.Data (Some domain) (Some username) (Some "") (Some "") (VStr "").

Definition credential (domain username password credtype : string)
  : User.data :=
  User.Data (Some domain) (Some username) (Some password) (Some credtype)
    VNone.

(** A placeholder for bob beside a captured credential of alice. *)
Definition bob_placeholder_and_alice : database :=
  with_users [Row 1 (placeholder "CORP" "bob");
              Row 2 (credential "CORP" "alice" "S3cret" "plaintext")].

(** A placeholder for bob beside captured credentials of alice and, in
    another domain, of carol. *)
Definition bob_placeholder_alice_and_carol : database :=
  with_users [Row 1 (placeholder "CORP" "bob");
              Row 2 (credential "CORP" "alice" "S3cret" "plaintext");
              Row 3 (credential "LAB" "carol"
                       "aad3b435b51404eeaad3b435b51404ee" "hash")].

(** One credential, and two hosts whose addresses both contain
    [10.0.0.5]. *)
Definition bob_and_two_hosts : database :=
  Database
    [Row 1 (host_at "10.0.0.5"); Row 2 (host_at "10.0.0.50")]
    [Row 1 (credential "CORP" "bob" "Passw0rd!" "plaintext")]
    [] [] [] [] [].

(** A domain controller whose hostname carries the DNS suffix. *)
Definition dc01_host : database :=
  with_computers
    [Row 1
       (Computer.Data (Some "10.0.0.5") (Some "DC01.corp") (Some "CORP")
          (Some "Windows Server 2019") (Some true) (Some false) (Some true)
          None None None)].

(** * The rest of the class *)

(** The remaining accessors, writers and removals.  The schema declares
    foreign keys, but nothing in this file asks SQLite to enforce them
    (there is no [PRAGMA foreign_keys]), and SQLite does not unless asked:
    a row may name an id no table holds. *)

(** ** Failure of an insert *)

(** What the insert of [add_share] can raise: a violated [UNIQUE]
    constraint. *)
Inductive failure : Type :=
| IntegrityError.

Inductive attempt (A : Type) : Type :=
| Done (a : A)
| Failed (f : failure).
Arguments Failed {A} f.

Definition set_SharesTable (t : table Share.data) (db : database) :=
  Database (ComputersTable db) (UsersTable db) (GroupsTable db) t
    (AdminRelationsTable db) (GroupRelationsTable db)
    (LoggedinRelationsTable db).

(** ** Shares *)

(** A value stored in a column declared [text]: an integer is kept as its
    decimal text. *)
Definition text_affinity (v : value) : value :=
  match v with
  | VInt n => VStr (str (VInt n))
  | _ => v
  end.

(** [column == literal] on the [text] column [computerid]: [IS NULL] for
    [None]; an integer operand is compared as text. *)
Definition sql_eq_text (column literal : value) : bool :=
  match literal, column with
  | VNone, VNone => true
  | VNone, _ => false
  | _, VNone => false
  | _, _ => String.eqb (str column) (str literal)
  end.

(** The rows [UNIQUE(computerid, userid, name)] sets against a new one: a
    [NULL] in any of the three columns conflicts with nothing.  (The schema
    has no comma between the foreign key and this constraint; SQLite takes
    table constraints with or without one.) *)
Definition share_conflict (new : Share.data) (s : row Share.data) : bool :=
  match Share.computerid new, Share.userid new, Share.name new with
  | VNone, _, _ | _, None, _ | _, _, None => false
  | c, Some u, Some n =>
      value_eqb (Share.computerid (cols s)) c
      && sql_eq_int (Share.userid (cols s)) (Some u)
      && sql_eq (Share.name (cols s)) (Some n)
  end.

(** [add_share]: the insert returns the new id ([returning] and
    [scalar_one]). *)
Definition add_share (db : database) (computer_id : value)
    (user_id : option Z) (name remark : option string)
    (read write : option bool) : database * attempt Z :=
  let share_data :=
    Share.Data (text_affinity computer_id) user_id name remark read write in
  if existsb (share_conflict share_data) (SharesTable db) then
    (db, Failed IntegrityError)
  else
    (set_SharesTable (insert_row share_data (SharesTable db)) db,
     Done (next_rowid (SharesTable db))).

(** [is_share_valid] *)
Definition is_share_valid (db : database) (share_id : value) : bool :=
  let results :=
    Query.all (Query.filter (Query.select (SharesTable db))
                 [fun s => sql_id_eq (id s) share_id]) in
  (0 <? List.length results)%nat.

(** [get_shares] *)
Definition get_shares (db : database) (filter_term : value)
  : list (row Share.data) :=
  let q :=
    if is_share_valid db filter_term then
      Query.filter (Query.select (SharesTable db))
        [fun s => sql_id_eq (id s) filter_term]
    else if truthy filter_term then
      Query.filter (Query.select (SharesTable db))
        [fun s => sql_like (option_map Str.lower (Share.name (cols s)))
                    (Str.lower ("%" ++ str filter_term ++ "%"))]
    else Query.select (SharesTable db) in
  Query.all q.

(** The select of [get_users_with_share_access] reads [userid] alone and
    tests [computerid] and [name]: the index of
    [UNIQUE(computerid, userid, name)] holds all three, and SQLite answers
    from it.  The shares of one host and one name come out in the order of
    the index: by [userid], [NULL] first, and by id among equals. *)
Definition userid_le (a b : option Z) : bool :=
  match a, b with
  | None, _ => true
  | Some _, None => false
  | Some x, Some y => x <=? y
  end.

Fixpoint insert_by_userid (s : row Share.data) (l : list (row Share.data))
  : list (row Share.data) :=
  match l with
  | [] => [s]
  | x :: l' =>
      if userid_le (Share.userid (cols x)) (Share.userid (cols s)) then
        x :: insert_by_userid s l'
      else s :: l
  end.

Definition index_order (l : list (row Share.data)) : list (row Share.data) :=
  fold_left (fun sorted s => insert_by_userid s sorted) l [].

(** [get_users_with_share_access]: as in [get_shares_by_access] the filters
    on the flags are built and dropped. *)
Definition get_users_with_share_access (db : database) (computer_id : value)
    (share_name : option string) (permissions : string)
  : list (option Z) :=
  let permissions := Str.lower permissions in
  let q :=
    Query.filter (Query.select (SharesTable db))
      [fun s => sql_eq (Share.name (cols s)) share_name;
       fun s => sql_eq_text (Share.computerid (cols s)) computer_id] in
  let _ :=
    if Str.contains_char "r" permissions then
      Some (Query.filter q [fun s => sql_is_true (Share.read (cols s))])
    else None in
  let _ :=
    if Str.contains_char "w" permissions then
      Some (Query.filter q [fun s => sql_is_true (Share.write (cols s))])
    else None in
  List.map (fun s => Share.userid (cols s)) (index_order (Query.all q)).

(** ** Reading and removing credentials *)

(** [is_user_valid] *)
Definition is_user_valid (db : database) (user_id : value) : bool :=
  let results :=
    Query.all (Query.filter (Query.select (UsersTable db))
                 [fun u => sql_id_eq (id u) user_id]) in
  (0 <? List.length results)%nat.

(** [is_credential_valid]: the second criterion is
    [self.UsersTable.c.password is not None], which Python evaluates, before
    any statement is built, to [True]: the column object is not [None]. *)
Definition is_credential_valid (db : database) (credential_id : value)
  : bool :=
  let results :=
    Query.all (Query.filter (Query.select (UsersTable db))
                 [fun u => sql_id_eq (id u) credential_id;
                  fun _ => true]) in
  (0 <? List.length results)%nat.

(** [get_credentials] *)
Definition get_credentials (db : database) (filter_term : value)
    (cred_type : option string) : list (row User.data) :=
  let q :=
    if is_credential_valid db filter_term then
      Query.filter (Query.select (UsersTable db))
        [fun u => sql_id_eq (id u) filter_term]
    else if truthy_str cred_type then
      Query.filter (Query.select (UsersTable db))
        [fun u => sql_eq (User.credtype (cols u)) cred_type]
    else if truthy filter_term && negb (value_eqb filter_term (VStr "")) then
      Query.filter (Query.select (UsersTable db))
        [fun u => sql_like (option_map Str.lower (User.username (cols u)))
                    (Str.lower ("%" ++ str filter_term ++ "%"))]
    else Query.select (UsersTable db) in
  Query.all q.

(** [get_users] *)
Definition get_users (filter_term : value) : Session (list (row User.data)) :=
  fun db =>
    (if is_user_valid db filter_term then
       users <- conn_query UsersTable ;;
       ret (Query.all
              (Query.filter users [fun u => sql_id_eq (id u) filter_term]))
     else if truthy filter_term && negb (value_eqb filter_term (VStr ""))
     then
       users <- conn_query UsersTable ;;
       ret (Query.all
              (Query.filter users
                 [fun u =>
                    sql_like (option_map Str.lower (User.username (cols u)))
                      (Str.lower ("%" ++ str filter_term ++ "%"))]))
     else
       users <- conn_query UsersTable ;;
       ret (Query.all users)) db.

(** [get_user]: the domain is compared as given. *)
Definition get_user (domain username : option string)
  : Session (list (row User.data)) :=
  users <- conn_query UsersTable ;;
  ret (Query.all
         (Query.filter users
            [fun u => sql_lower_eq (User.domain (cols u)) domain;
             fun u => sql_lower_eq (User.username (cols u)) username])).

(** [remove_credentials]: one delete for each id. *)
Definition remove_credentials (creds_id : list value) : Session unit :=
  for_each creds_id
    (fun cred_id _ =>
       users <- conn_query UsersTable ;;
       query_delete
         (Query.filter users [fun u => sql_id_eq (id u) cred_id])
         set_UsersTable)
    tt.

(** ** Reading and removing relations *)

(** [get_admin_relations] *)
Definition get_admin_relations (db : database) (user_id host_id : option Z)
  : list (row Relation.data) :=
  let q :=
    if truthy_int user_id then
      Query.filter (Query.select (AdminRelationsTable db))
        [fun a => sql_eq_int (Relation.userid (cols a)) user_id]
    else if truthy_int host_id then
      Query.filter (Query.select (AdminRelationsTable db))
        [fun a => sql_eq_int (Relation.target (cols a)) host_id]
    else Query.select (AdminRelationsTable db) in
  Query.all q.

(** [remove_admin_relation].  An empty list counts as no list.  The branch
    for hosts names a column [hostid]; the column is [computerid]. *)
Definition remove_admin_relation (user_ids host_ids : list Z)
  : Session unit :=
  match user_ids, host_ids with
  | _ :: _, _ =>
      for_each user_ids
        (fun user_id _ =>
           links <- conn_query AdminRelationsTable ;;
           query_delete
             (Query.filter links
                [fun a => sql_eq_int (Relation.userid (cols a))
                            (Some user_id)])
             set_AdminRelationsTable)
        tt
  | [], _ :: _ =>
      for_each host_ids
        (fun (host_id : Z) (_ : unit) =>
           links <- conn_query AdminRelationsTable ;;
           raise AttributeError)
        tt
  | [], [] => ret tt
  end.

(** [remove_group_relations] *)
Definition remove_group_relations (user_id group_id : option Z)
  : Session unit :=
  if truthy_int user_id then
    relations <- conn_query GroupRelationsTable ;;
    query_delete
      (Query.filter relations
         [fun r => sql_eq_int (Relation.userid (cols r)) user_id])
      set_GroupRelationsTable
  else if truthy_int group_id then
    relations <- conn_query GroupRelationsTable ;;
    query_delete
      (Query.filter relations
         [fun r => sql_eq_int (Relation.target (cols r)) group_id])
      set_GroupRelationsTable
  else ret tt.

(** ** Reading groups and domain controllers *)

(** [get_domain_controllers] *)
Definition get_domain_controllers (domain : option string)
  : Session (fetched Computer.data) :=
  get_computers (VStr "dc") domain.

(** [get_groups].  The branch for a name and a domain names a column
    [username]; [groups] has [name]. *)
Definition get_groups (filter_term : value)
    (group_name group_domain : option string)
  : Session (fetched Group.data) :=
  fun db =>
    (let group_domain :=
       if truthy_str group_domain then
         option_map normalize_domain group_domain
       else group_domain in
     if is_group_valid db filter_term then
       groups <- conn_query GroupsTable ;;
       ret (One (Query.first
                   (Query.filter groups
                      [fun g => sql_id_eq (id g) filter_term])))
     else if truthy_str group_name && truthy_str group_domain then
       groups <- conn_query GroupsTable ;;
       raise AttributeError
     else if truthy filter_term && negb (value_eqb filter_term (VStr ""))
     then
       groups <- conn_query GroupsTable ;;
       ret (Many (Query.all
                    (Query.filter groups
                       [fun g =>
                          sql_like
                            (option_map Str.lower (Group.name (cols g)))
                            (Str.lower ("%" ++ str filter_term ++ "%"))])))
     else
       groups <- conn_query GroupsTable ;;
       ret (Many (Query.all groups))) db.

(** ** Placeholders: [add_user] *)

(** What [add_user] binds to [user_rowid]: nothing yet, the id read from a
    match, or the coroutine of an [execute]. *)
Inductive rowid_value : Type :=
| RowidNone
| RowidInt (n : Z)
| RowidCoroutine (c : coroutine).

(** [not user_rowid] *)
Definition rowid_missing (v : rowid_value) : bool :=
  match v with
  | RowidNone => true
  | RowidInt n => n =? 0
  | RowidCoroutine _ => false
  end.

(** [a != b] on two Python values that are [None] or a [str]. *)
Definition py_ne (a b : option string) : bool :=
  match a, b with
  | Some x, Some y => negb (String.eqb x y)
  | None, None => false
  | _, _ => true
  end.

(** The body of the update loop of [add_user].  A coroutine given to
    [get_group_relations] as the user id is a parameter the driver cannot
    bind. *)
Definition add_user_step (domain username : option string)
    (group_id : option Z) (user : row User.data) (user_rowid : rowid_value)
  : Session rowid_value :=
  user_rowid <- (if py_ne domain (User.domain (cols user))
                    && py_ne username (User.username (cols user)) then
                   c <- conn_execute ;; ret (RowidCoroutine c)
                 else ret user_rowid) ;;
  let user_rowid :=
    if rowid_missing user_rowid then RowidInt (id user) else user_rowid in
  if truthy_int group_id then
    match user_rowid with
    | RowidInt n =>
        relations <- get_group_relations (Some n) group_id ;;
        _ <- (if Nat.eqb (List.length relations) 0 then
                _ <- conn_execute ;; ret tt
              else ret tt) ;;
        ret user_rowid
    | _ => raise DBAPIError
    end
  else ret user_rowid.

(** [add_user].  The guard on the group comes first and returns [None];
    the lookup of the user is the next statement that touches the
    session. *)
Definition add_user (domain : string) (username : option string)
    (group_id : option Z) : Session rowid_value :=
  fun db =>
    if truthy_int group_id && negb (is_group_valid db (of_int group_id)) then
      (db, Returned RowidNone)
    else
      (let domain := Some (normalize_domain domain) in
       users <- conn_query UsersTable ;;
       let results :=
         Query.all
           (Query.filter users
              [fun u => sql_lower_eq (User.domain (cols u)) domain;
               fun u => sql_lower_eq (User.username (cols u)) username]) in
       match results with
       | [] =>
           c <- conn_execute ;;
           _ <- (if truthy_int group_id then
                   _ <- conn_execute ;; ret tt
                 else ret tt) ;;
           ret (RowidCoroutine c)
       | _ =>
           for_each results (add_user_step domain username group_id)
             RowidNone
       end) db.

(** ** Predicates of the properties *)

(** Every table of the database is in rowid order. *)
Definition ordered (db : database) : Prop :=
  rowid_ordered (ComputersTable db) /\ rowid_ordered (UsersTable db)
  /\ rowid_ordered (GroupsTable db) /\ rowid_ordered (SharesTable db)
  /\ rowid_ordered (AdminRelationsTable db)
  /\ rowid_ordered (GroupRelationsTable db)
  /\ rowid_ordered (LoggedinRelationsTable db).

(** A stored domain in the form the writers give it: normalizing it again
    changes nothing. *)
Definition normalized (domain : option string) : bool :=
  match domain with
  | Some d => String.eqb (normalize_domain d) d
  | None => true
  end.

(** Every domain stored for a host, a credential or a group is in that
    form. *)
Definition domains_normalized (db : database) : Prop :=
  forallb (fun c => normalized (Computer.domain (cols c))) (ComputersTable db)
  = true
  /\ forallb (fun u => normalized (User.domain (cols u))) (UsersTable db)
     = true
  /\ forallb (fun g => normalized (Group.domain (cols g))) (GroupsTable db)
     = true.

(** No two shares agree on a key without [NULL]s. *)
Fixpoint unique_shares (t : table Share.data) : bool :=
  match t with
  | [] => true
  | s :: t' => negb (existsb (share_conflict (cols s)) t') && unique_shares t'
  end.

(** * Properties *)

Unset Implicit Arguments.

(** ** Selects *)

Lemma filter_all_true {A} (p : A -> bool) (l : list A) :
  (forall x, In x l -> p x = true) -> List.filter p l = l.
Proof.
  induction l as [|a l IH]; intros H; simpl; [reflexivity|].
  rewrite (H a (or_introl eq_refl)), IH; [reflexivity|].
  intros x Hx; apply H; right; exact Hx.
Qed.

Lemma all_select {D} (t : table D) : Query.all (Query.select t) = t.
Proof. apply filter_all_true; intros; reflexivity. Qed.

Lemma all_filter1 {D} (t : table D) (p : row D -> bool) :
  Query.all (Query.filter (Query.select t) [p]) = List.filter p t.
Proof.
  unfold Query.all; simpl. apply filter_ext.
  intros r; apply andb_true_r.
Qed.

Lemma all_filter2 {D} (t : table D) (p q : row D -> bool) :
  Query.all (Query.filter (Query.select t) [p; q])
  = List.filter (fun r => p r && q r) t.
Proof.
  unfold Query.all; simpl. apply filter_ext.
  intros r; rewrite andb_true_r; reflexivity.
Qed.

Lemma all_filter {D} (t : table D) (cs : list (row D -> bool)) :
  Query.all (Query.filter (Query.select t) cs)
  = List.filter (fun r => forallb (fun c => c r) cs) t.
Proof. reflexivity. Qed.

(** ** Tables in rowid order *)

Lemma ids_app {D} (t u : table D) : ids (t ++ u)%list = (ids t ++ ids u)%list.
Proof. apply map_app. Qed.

Lemma rowid_ordered_cons {D} (x : row D) (t : table D) :
  rowid_ordered (x :: t) ->
  forallb (Z.ltb (id x)) (ids t) = true /\ rowid_ordered t.
Proof. unfold rowid_ordered; simpl; intros H; apply andb_prop in H; exact H. Qed.

Lemma above_lt {D} (i : Z) (t : table D) (x : row D) :
  forallb (Z.ltb i) (ids t) = true -> In x t -> i < id x.
Proof.
  intros H Hx. rewrite forallb_forall in H.
  apply Z.ltb_lt, H, in_map, Hx.
Qed.

Lemma rowid_unique {D} (t : table D) (x y : row D) :
  rowid_ordered t -> In x t -> In y t -> id x = id y -> x = y.
Proof.
  induction t as [|a t IH]; intros Hwf Hx Hy E; [destruct Hx|].
  apply rowid_ordered_cons in Hwf; destruct Hwf as [Ha Hwf].
  destruct Hx as [<-|Hx], Hy as [<-|Hy].
  - reflexivity.
  - pose proof (above_lt _ _ _ Ha Hy); lia.
  - pose proof (above_lt _ _ _ Ha Hx); lia.
  - apply IH; assumption.
Qed.

Lemma above_keep {D} (i : Z) (t : table D) :
  forallb (Z.ltb i) (ids t) = true ->
  List.filter (fun x => negb (id x =? i)) t = t.
Proof.
  intros H; apply filter_all_true; intros x Hx.
  pose proof (above_lt _ _ _ H Hx).
  apply negb_true_iff, Z.eqb_neq; lia.
Qed.

Lemma above_untouched {D} (r : row D) (t : table D) :
  forallb (Z.ltb (id r)) (ids t) = true ->
  List.map (fun x => if id x =? id r then r else x) t = t.
Proof.
  intros H. rewrite <- (map_id t) at 2. apply map_ext_in; intros x Hx.
  pose proof (above_lt _ _ _ H Hx) as L.
  destruct (Z.eqb_spec (id x) (id r)); [lia|reflexivity].
Qed.

Lemma above_insert {D} (r : row D) (t : table D) :
  forallb (Z.ltb (id r)) (ids t) = true -> insert_by_rowid r t = r :: t.
Proof.
  destruct t as [|y t]; [reflexivity|]; simpl; intros H.
  apply andb_prop in H; destruct H as [H _]. rewrite H; reflexivity.
Qed.

(** On a stored table, the [REPLACE] of a row whose id is present rewrites
    that row where it stands. *)
Lemma replace_in_place {D} (r : row D) (t : table D) :
  rowid_ordered t -> In (id r) (ids t) ->
  insert_by_rowid r (List.filter (fun x => negb (id x =? id r)) t)
  = List.map (fun x => if id x =? id r then r else x) t.
Proof.
  induction t as [|x t IH]; intros Hwf Hin; [destruct Hin|].
  apply rowid_ordered_cons in Hwf; destruct Hwf as [Hx Hwf].
  simpl. destruct (Z.eqb_spec (id x) (id r)) as [E|N]; simpl.
  - rewrite <- E in *.
    assert (Hr : forallb (Z.ltb (id r)) (ids t) = true) by (rewrite <- E; exact Hx).
    rewrite E. rewrite (above_keep _ _ Hr), (above_untouched _ _ Hr).
    apply above_insert; exact Hr.
  - destruct Hin as [Hin|Hin]; [congruence|].
    assert (L : id x < id r).
    { rewrite forallb_forall in Hx. apply Z.ltb_lt, Hx, Hin. }
    destruct (Z.ltb_spec (id r) (id x)); [lia|].
    rewrite IH; auto.
Qed.

Lemma ids_replace {D} (r : row D) (t : table D) :
  ids (List.map (fun x => if id x =? id r then r else x) t) = ids t.
Proof.
  unfold ids; rewrite map_map; apply map_ext; intros x.
  destruct (Z.eqb_spec (id x) (id r)); congruence.
Qed.

Section FoldReplace.
Context {D : Type} (f : row D -> D).

Let step (y h : row D) : row D :=
  if id y =? id h then Row (id h) (f h) else y.

Lemma fold_replace (rs : list (row D)) (u : table D) :
  rowid_ordered u -> incl (ids rs) (ids u) ->
  fold_left (fun t params => insert_or_replace params t)
    (List.map (fun h => (Some (id h), f h)) rs) u
  = List.map (fun x => fold_left step rs x) u.
Proof.
  revert u; induction rs as [|h rs IH]; intros u Hwf Hin; simpl.
  - symmetry; apply map_id.
  - unfold insert_or_replace at 2; simpl.
    pose proof (replace_in_place (Row (id h) (f h)) u Hwf) as R; simpl in R.
    pose proof (ids_replace (Row (id h) (f h)) u) as I; simpl in I.
    rewrite R by (apply Hin; left; reflexivity).
    rewrite IH.
    + rewrite map_map; reflexivity.
    + unfold rowid_ordered; rewrite I; exact Hwf.
    + rewrite I; intros i Hi; apply Hin; right; exact Hi.
Qed.

Lemma fold_step_one (x0 : row D) (rs : list (row D)) :
  (forall h, In h rs -> id h = id x0 -> h = x0) ->
  forall y, id y = id x0 ->
  fold_left step rs y
  = if existsb (fun h => id h =? id x0) rs then Row (id x0) (f x0) else y.
Proof.
  induction rs as [|h rs IH]; intros Hu y Ey; simpl; [reflexivity|].
  assert (Hu' : forall h', In h' rs -> id h' = id x0 -> h' = x0)
    by (intros h' Hh'; apply Hu; right; exact Hh').
  unfold step at 2. rewrite Ey, (Z.eqb_sym (id x0) (id h)).
  destruct (Z.eqb_spec (id h) (id x0)) as [E|N]; simpl.
  - rewrite (Hu h (or_introl eq_refl) E).
    rewrite (IH Hu') by reflexivity.
    destruct (existsb _ rs); reflexivity.
  - apply IH; assumption.
Qed.

(** Replacing every selected row by id rewrites exactly the selected
    rows. *)
Lemma fold_replace_selected (p : row D -> bool) (t : table D) :
  rowid_ordered t ->
  fold_left (fun t params => insert_or_replace params t)
    (List.map (fun h => (Some (id h), f h)) (List.filter p t)) t
  = List.map (fun x => if p x then Row (id x) (f x) else x) t.
Proof.
  intros Hwf. rewrite fold_replace; auto.
  - apply map_ext_in; intros x Hx.
    rewrite (fold_step_one x).
    + destruct (p x) eqn:P.
      * replace (existsb _ _) with true; [reflexivity|].
        symmetry; apply existsb_exists; exists x; split.
        { apply filter_In; auto. }
        { apply Z.eqb_refl. }
      * replace (existsb _ _) with false; [reflexivity|].
        symmetry; apply not_true_is_false; intros H.
        apply existsb_exists in H; destruct H as (h & Hh & E).
        apply filter_In in Hh; destruct Hh as [Hh Ph].
        apply Z.eqb_eq in E.
        rewrite (rowid_unique _ _ _ Hwf Hh Hx E) in Ph; congruence.
    + intros h Hh E; apply filter_In in Hh.
      apply (rowid_unique t); tauto.
    + reflexivity.
  - intros i Hi; unfold ids in *.
    apply in_map_iff in Hi; destruct Hi as (h & <- & Hh).
    apply in_map, (proj1 (filter_In _ _ _) Hh).
Qed.
End FoldReplace.

Lemma fold_max_ge (l : list Z) (a : Z) :
  a <= fold_left Z.max l a /\ forall x, In x l -> x <= fold_left Z.max l a.
Proof.
  revert a; induction l as [|b l IH]; intros a; simpl.
  - split; [lia|intros x []].
  - destruct (IH (Z.max a b)) as [H1 H2]; split; [lia|].
    intros x [<-|Hx]; [lia|auto].
Qed.

Lemma next_rowid_above {D} (t : table D) (i : Z) :
  In i (ids t) -> i < next_rowid t.
Proof.
  unfold next_rowid; destruct (ids t) as [|j l]; [intros []|].
  destruct (fold_max_ge l j) as [H1 H2].
  intros [<-|Hi]; [lia|]. specialize (H2 _ Hi); lia.
Qed.

Lemma rowid_ordered_snoc {D} (t : table D) (r : row D) :
  rowid_ordered t -> (forall i, In i (ids t) -> i < id r) ->
  rowid_ordered (t ++ [r])%list.
Proof.
  unfold rowid_ordered; induction t as [|x t IH]; intros Hwf Hr; simpl.
  - reflexivity.
  - simpl in Hwf; apply andb_prop in Hwf; destruct Hwf as [Hx Hwf].
    apply andb_true_intro; split.
    + fold (ids (t ++ [r])%list). rewrite ids_app, forallb_app, Hx; simpl.
      rewrite andb_true_r; apply Z.ltb_lt, Hr; left; reflexivity.
    + apply IH; [exact Hwf|]. intros i Hi; apply Hr; right; exact Hi.
Qed.

Lemma rowid_ordered_insert_row {D} (d : D) (t : table D) :
  rowid_ordered t -> rowid_ordered (insert_row d t).
Proof.
  intros Hwf; apply rowid_ordered_snoc; [exact Hwf|].
  intros i Hi; apply next_rowid_above; exact Hi.
Qed.

Lemma rowid_ordered_rewrite {D} (g : row D -> row D) (t : table D) :
  (forall x, id (g x) = id x) -> rowid_ordered t ->
  rowid_ordered (List.map g t).
Proof.
  intros Hg Hwf; unfold rowid_ordered, ids.
  rewrite map_map, (map_ext _ (@id D) Hg); exact Hwf.
Qed.

(** ** Column comparisons *)

Lemma sql_eq_iff (column literal : option string) :
  sql_eq column literal = true <-> column = literal.
Proof.
  destruct column as [c|], literal as [a|]; simpl;
    try (split; [discriminate|congruence]); [|tauto].
  rewrite String.eqb_eq; split; congruence.
Qed.

Lemma sql_eq_refl (literal : option string) : sql_eq literal literal = true.
Proof. apply sql_eq_iff; reflexivity. Qed.

Lemma sql_eq_int_iff (column literal : option Z) :
  sql_eq_int column literal = true <-> column = literal.
Proof.
  destruct column as [c|], literal as [a|]; simpl;
    try (split; [discriminate|congruence]); [|tauto].
  rewrite Z.eqb_eq; split; congruence.
Qed.

Lemma or_else_same {A} (a : option A) : or_else a a = a.
Proof. destruct a; reflexivity. Qed.

Lemma or_else_twice {A} (a b : option A) : or_else a (or_else a b) = or_else a b.
Proof. destruct a; reflexivity. Qed.

(** ** [LIKE] patterns built from a term *)

Lemma lower_char_twice (c : ascii) :
  Str.lower_char (Str.lower_char c) = Str.lower_char c.
Proof. destruct c as [[] [] [] [] [] [] [] []]; reflexivity. Qed.

Lemma lower_char_percent (c : ascii) :
  Ascii.eqb (Str.lower_char c) "%" = Ascii.eqb c "%".
Proof. destruct c as [[] [] [] [] [] [] [] []]; reflexivity. Qed.

Lemma lower_char_underscore (c : ascii) :
  Ascii.eqb (Str.lower_char c) "_" = Ascii.eqb c "_".
Proof. destruct c as [[] [] [] [] [] [] [] []]; reflexivity. Qed.

Lemma like_percent (pattern s : string) :
  Str.like (String "%" pattern) s
  = Str.like pattern s
    || match s with
       | EmptyString => false
       | String _ s' => Str.like (String "%" pattern) s'
       end.
Proof. destruct s; reflexivity. Qed.

Lemma like_char (p : ascii) (pattern s : string) :
  Ascii.eqb p "%" = false ->
  Str.like (String p pattern) s
  = match s with
    | EmptyString => false
    | String c s' =>
        (Ascii.eqb p "_"
         || Ascii.eqb (Str.lower_char p) (Str.lower_char c))
        && Str.like pattern s'
    end.
Proof. intros H; simpl; rewrite H; reflexivity. Qed.

(** Lowering the pattern and the text changes no match. *)
Lemma like_lower (pattern : string) :
  forall s, Str.like (Str.lower pattern) (Str.lower s) = Str.like pattern s.
Proof.
  induction pattern as [|p pattern IH]; intros s.
  - destruct s; reflexivity.
  - change (Str.lower (String p pattern))
      with (String (Str.lower_char p) (Str.lower pattern)).
    destruct (Ascii.eqb p "%") eqn:P.
    + apply Ascii.eqb_eq in P; subst p.
      change (Str.lower_char "%") with "%"%char.
      induction s as [|c s IHs].
      * rewrite (like_percent (Str.lower pattern)), (like_percent pattern).
        rewrite <- (IH ""); reflexivity.
      * rewrite (like_percent pattern).
        change (Str.lower (String c s))
          with (String (Str.lower_char c) (Str.lower s)).
        rewrite (like_percent (Str.lower pattern)), IHs.
        rewrite <- (IH (String c s)); reflexivity.
    + rewrite (like_char p pattern s P).
      rewrite like_char by (rewrite lower_char_percent; exact P).
      destruct s as [|c s]; [reflexivity|].
      change (Str.lower (String c s))
        with (String (Str.lower_char c) (Str.lower s)).
      rewrite lower_char_underscore, !lower_char_twice, IH; reflexivity.
Qed.

Lemma no_wildcard_cons (c : ascii) (t : string) :
  Str.no_wildcard (String c t) = true ->
  Ascii.eqb c "%" = false /\ Ascii.eqb c "_" = false
  /\ Str.no_wildcard t = true.
Proof.
  unfold Str.no_wildcard; intros H.
  change (Str.contains_char "%" (String c t))
    with (Ascii.eqb "%" c || Str.contains_char "%" t) in H.
  change (Str.contains_char "_" (String c t))
    with (Ascii.eqb "_" c || Str.contains_char "_" t) in H.
  apply andb_prop in H; destruct H as [H1 H2].
  apply negb_true_iff, orb_false_elim in H1.
  apply negb_true_iff, orb_false_elim in H2.
  destruct H1 as [A B], H2 as [C E].
  rewrite Ascii.eqb_sym in A; rewrite Ascii.eqb_sym in C.
  rewrite A, C, B, E; auto.
Qed.

Lemma like_anything (s : string) : Str.like "%" s = true.
Proof.
  induction s as [|c s IH]; [reflexivity|].
  rewrite like_percent, IH; apply orb_true_r.
Qed.

(** [term%] matches the texts that start with the term. *)
Lemma like_term_percent (t : string) :
  Str.no_wildcard t = true ->
  forall s, Str.like (t ++ "%") s = Str.starts_with_nocase t s.
Proof.
  induction t as [|c t IH]; intros W s.
  - change (("" ++ "%")%string) with "%".
    rewrite (like_anything s); destruct s; reflexivity.
  - apply no_wildcard_cons in W; destruct W as (P & U & W).
    change ((String c t ++ "%")%string) with (String c (t ++ "%")).
    rewrite like_char by exact P; rewrite U; simpl.
    destruct s as [|d s]; [reflexivity|]. rewrite (IH W); reflexivity.
Qed.

(** [%term%] matches the texts that contain the term. *)
Lemma like_percent_term_percent (t : string) :
  Str.no_wildcard t = true ->
  forall s, Str.like ("%" ++ t ++ "%") s = Str.contains_nocase t s.
Proof.
  intros W s; change (("%" ++ t ++ "%")%string) with (String "%" (t ++ "%")).
  induction s as [|c s IH]; rewrite like_percent, (like_term_percent t W).
  - reflexivity.
  - rewrite IH; reflexivity.
Qed.

(** ** Shares *)

(** C10.  [get_shares_by_access] returns the whole [shares] table: the
    filters on the share id and on the read and write flags are built and
    dropped, so the result depends on neither argument. *)
Theorem get_shares_by_access_returns_every_share :
  forall (db : database) (permissions : string) (share_id : option Z),
    get_shares_by_access db permissions share_id = SharesTable db
    /\ forall (permissions' : string) (share_id' : option Z),
         get_shares_by_access db permissions share_id
         = get_shares_by_access db permissions' share_id'.
Proof.
  assert (H : forall db permissions share_id,
             get_shares_by_access db permissions share_id = SharesTable db).
  { intros db permissions share_id; unfold get_shares_by_access.
    cbv zeta. apply all_select. }
  intros db permissions share_id; split; [apply H|].
  intros permissions' share_id'; rewrite !H; reflexivity.
Qed.

(** Had the flag filter been kept, a share that is not readable would be
    left out. *)
Example filter_on_read_drops_rows :
  let shares :=
    [Row 1 (Share.Data (VInt 1) (Some 1) (Some "C$") None (Some false)
              (Some false))] in
  let db := Database [] [] [] shares [] [] [] in
  get_shares_by_access db "r" None = shares
  /\ Query.all
       (Query.filter (Query.select shares)
          [fun s => sql_is_true (Share.read (cols s))]) = [].
Proof. split; reflexivity. Qed.

(** ** Hosts *)

Section AddComputer.
Variables (ip hostname : option string) (domain : string)
          (os : option string)
          (smbv1 signing spooler zerologon petitpotam dc : option bool).

Local Abbreviation merged_columns :=
  (merged_columns ip hostname domain os smbv1 signing spooler zerologon
     petitpotam dc).
Local Abbreviation selected := (selected ip).
Local Abbreviation merged :=
  (merged ip hostname domain os smbv1 signing spooler zerologon petitpotam dc).
Local Abbreviation add db :=
  (add_computer db ip hostname domain os smbv1 signing spooler zerologon
     petitpotam dc).

Lemma computer_data_of_columns (host : row Computer.data) :
  computer_data_of host ip hostname (Some (normalize_domain domain)) os
    smbv1 signing spooler zerologon petitpotam dc
  = (Some (id host), merged_columns (cols host)).
Proof.
  unfold computer_data_of, merged_columns.
  destruct host as [i []]; simpl.
  destruct ip, hostname, os, smbv1, signing, spooler, zerologon,
    petitpotam, dc; reflexivity.
Qed.

Lemma hosts_with_ip_filter (db : database) :
  hosts_with_ip db ip = List.filter selected (ComputersTable db).
Proof. apply all_filter1. Qed.

Lemma add_computer_new (db : database) :
  hosts_with_ip db ip = [] ->
  add db
  = set_ComputersTable
      (insert_row
         (Computer.Data ip hostname (Some (normalize_domain domain)) os dc
            smbv1 signing spooler zerologon petitpotam)
         (ComputersTable db)) db.
Proof.
  intros E; unfold add, add_computer; rewrite E; reflexivity.
Qed.

Lemma add_computer_existing (db : database) :
  rowid_ordered (ComputersTable db) ->
  hosts_with_ip db ip <> [] ->
  add db = set_ComputersTable (List.map merged (ComputersTable db)) db.
Proof.
  intros Hwf Hne; unfold add, add_computer.
  destruct (hosts_with_ip db ip) as [|h hs] eqn:E; [contradiction|].
  rewrite <- E, hosts_with_ip_filter.
  rewrite (map_ext _ (fun h => (Some (id h), merged_columns (cols h)))
             computer_data_of_columns).
  rewrite (fold_replace_selected (fun h => merged_columns (cols h)))
    by exact Hwf.
  reflexivity.
Qed.

Lemma selected_merged (c : row Computer.data) :
  selected (merged c) = selected c.
Proof.
  unfold merged; destruct (selected c) eqn:S; [|exact S].
  unfold selected in *; simpl. apply sql_eq_iff in S; rewrite S.
  rewrite or_else_same; apply sql_eq_refl.
Qed.

Lemma merged_twice (c : row Computer.data) : merged (merged c) = merged c.
Proof.
  unfold merged at 1; rewrite selected_merged.
  unfold merged; destruct (selected c) eqn:S; [|reflexivity].
  simpl; unfold merged_columns; simpl.
  rewrite !or_else_twice; reflexivity.
Qed.

Lemma filter_selected_merged (t : table Computer.data) :
  List.filter selected (List.map merged t)
  = List.map merged (List.filter selected t).
Proof.
  induction t as [|c t IH]; simpl; [reflexivity|].
  rewrite selected_merged; destruct (selected c); simpl; congruence.
Qed.

Lemma add_computer_ordered (db : database) :
  rowid_ordered (ComputersTable db) ->
  rowid_ordered (ComputersTable (add db)).
Proof.
  intros Hwf.
  destruct (hosts_with_ip db ip) as [|h hs] eqn:E.
  - rewrite add_computer_new by exact E; simpl.
    apply rowid_ordered_insert_row, Hwf.
  - rewrite add_computer_existing by (auto; congruence); simpl.
    apply rowid_ordered_rewrite; [|exact Hwf].
    intros x; unfold merged; destruct (selected x); reflexivity.
Qed.

(** The rows with the reported ip after one call: the one inserted, or
    the ones that were there, merged. *)
Lemma hosts_after_add (db : database) :
  rowid_ordered (ComputersTable db) ->
  hosts_with_ip (add db) ip
  = match hosts_with_ip db ip with
    | [] => [Row (next_rowid (ComputersTable db))
               (Computer.Data ip hostname (Some (normalize_domain domain))
                  os dc smbv1 signing spooler zerologon petitpotam)]
    | found => List.map merged found
    end.
Proof.
  intros Hwf.
  destruct (hosts_with_ip db ip) as [|h hs] eqn:E.
  - rewrite add_computer_new by exact E.
    rewrite hosts_with_ip_filter in *; simpl.
    unfold insert_row; rewrite filter_app, E; simpl.
    unfold selected at 1; simpl; rewrite sql_eq_refl; reflexivity.
  - rewrite add_computer_existing by (auto; congruence).
    rewrite hosts_with_ip_filter in *; simpl.
    rewrite filter_selected_merged, E; reflexivity.
Qed.

(** A second identical call writes nothing new. *)
Lemma add_computer_idempotent (db : database) :
  rowid_ordered (ComputersTable db) -> add (add db) = add db.
Proof.
  intros Hwf.
  pose proof (add_computer_ordered db Hwf) as Hwf1.
  pose proof (hosts_after_add db Hwf) as H1.
  rewrite (add_computer_existing (add db) Hwf1).
  2:{ rewrite H1; destruct (hosts_with_ip db ip); discriminate. }
  destruct (hosts_with_ip db ip) as [|h hs] eqn:E.
  - rewrite add_computer_new by exact E; simpl.
    unfold set_ComputersTable; simpl; f_equal.
    unfold insert_row; rewrite map_app; simpl. f_equal.
    + rewrite <- (map_id (ComputersTable db)) at 2.
      apply map_ext_in; intros c Hc; unfold merged.
      destruct (selected c) eqn:S; [|reflexivity].
      rewrite hosts_with_ip_filter in E.
      assert (In c (List.filter selected (ComputersTable db)))
        by (apply filter_In; auto).
      rewrite E in H; destruct H.
    + unfold merged, selected; simpl; rewrite sql_eq_refl.
      unfold merged_columns; simpl; rewrite !or_else_same; reflexivity.
  - rewrite add_computer_existing by (auto; congruence); simpl.
    unfold set_ComputersTable; simpl; f_equal.
    rewrite map_map; apply map_ext; intros c; apply merged_twice.
Qed.
End AddComputer.

(** ** Host upsert *)

(** C4.  When a row with the reported ip exists, [add_computer] rewrites
    each such row column by column: an argument that is not [None] replaces
    the column, a [None] argument leaves it as stored, and the domain takes
    the normalized argument.  Rows with another ip and the other tables stay
    as they are.  With [hostname = None] every row keeps its hostname. *)
Theorem add_computer_merges_into_existing :
  forall (db : database) (ip hostname : option string) (domain : string)
         (os : option string)
         (smbv1 signing spooler zerologon petitpotam dc : option bool),
    rowid_ordered (ComputersTable db) ->
    (exists h, In h (ComputersTable db) /\ Computer.ip (cols h) = ip) ->
    let db' := add_computer db ip hostname domain os smbv1 signing spooler
                 zerologon petitpotam dc in
    db' = set_ComputersTable
            (List.map
               (fun old =>
                  if sql_eq (Computer.ip (cols old)) ip then
                    Row (id old)
                      (Computer.Data
                         (or_else ip (Computer.ip (cols old)))
                         (or_else hostname (Computer.hostname (cols old)))
                         (Some (normalize_domain domain))
                         (or_else os (Computer.os (cols old)))
                         (or_else dc (Computer.dc (cols old)))
                         (or_else smbv1 (Computer.smbv1 (cols old)))
                         (or_else signing (Computer.signing (cols old)))
                         (or_else spooler (Computer.spooler (cols old)))
                         (or_else zerologon (Computer.zerologon (cols old)))
                         (or_else petitpotam (Computer.petitpotam (cols old))))
                  else old)
               (ComputersTable db)) db
    /\ (hostname = None ->
        List.map (fun c => Computer.hostname (cols c)) (ComputersTable db')
        = List.map (fun c => Computer.hostname (cols c)) (ComputersTable db)).
Proof.
  intros db ip hostname domain os smbv1 signing spooler zerologon petitpotam
    dc Hwf (h & Hh & Hip) db'.
  assert (E : db' = set_ComputersTable
                      (List.map
                         (merged ip hostname domain os smbv1 signing spooler
                            zerologon petitpotam dc) (ComputersTable db)) db).
  { apply add_computer_existing; [exact Hwf|].
    rewrite hosts_with_ip_filter. intros F.
    assert (In h (List.filter (selected ip) (ComputersTable db))).
    { apply filter_In; split; [exact Hh|]. apply sql_eq_iff, Hip. }
    rewrite F in H; destruct H. }
  split; [exact E|].
  intros ->; rewrite E; simpl. rewrite map_map; apply map_ext; intros c.
  unfold merged; destruct (selected ip c); reflexivity.
Qed.

Lemma add_computer_merges_into_existing_witness :
  ComputersTable
    (add_computer
       (add_computer empty_database (Some "10.0.0.5") (Some "DC01")
          "corp.local" (Some "Windows Server 2019") (Some false) (Some true)
          None None None (Some true))
       (Some "10.0.0.5") None "corp.local" None (Some false) (Some true)
       None None None None)
  = [Row 1
       (Computer.Data (Some "10.0.0.5") (Some "DC01") (Some "CORP")
          (Some "Windows Server 2019") (Some true) (Some false) (Some true)
          None None None)].
Proof.
  pose proof
    (add_computer_merges_into_existing
       (add_computer empty_database (Some "10.0.0.5") (Some "DC01")
          "corp.local" (Some "Windows Server 2019") (Some false) (Some true)
          None None None (Some true))
       (Some "10.0.0.5") None "corp.local" None (Some false) (Some true)
       None None None None) as H.
  destruct H as [H _].
  - reflexivity.
  - eexists; split; [left; reflexivity|reflexivity].
  - rewrite H; reflexivity.
Defined.

(** The scenario of the specification: a host reported as a domain
    controller, then reported again with its name, is one row with both. *)
Example add_computer_dc_then_hostname :
  ComputersTable
    (add_computer
       (add_computer empty_database (Some "10.0.0.5") None "corp.local" None
          None None None None None (Some true))
       (Some "10.0.0.5") (Some "DC01") "corp.local" None None None None None
       None None)
  = [Row 1
       (Computer.Data (Some "10.0.0.5") (Some "DC01") (Some "CORP") None
          (Some true) None None None None None)].
Proof. reflexivity. Qed.

(** C3, as stated, fails on a state that holds two rows for the ip: both
    are merged, and two rows remain after two identical calls. *)
Lemma add_computer_twice_keeps_twin_rows :
  rowid_ordered (ComputersTable twin_hosts)
  /\ List.length
       (hosts_with_ip
          (add_computer
             (add_computer twin_hosts (Some "10.0.0.5") (Some "DC01")
                "corp.local" None None None None None None None)
             (Some "10.0.0.5") (Some "DC01") "corp.local" None None None None
             None None None)
          (Some "10.0.0.5"))
     = 2%nat.
Proof. split; reflexivity. Qed.

(** C3, amended.  From a state with at most one row for the ip, two
    identical calls of [add_computer] leave exactly one row with that ip,
    and the second call changes nothing. *)
Theorem add_computer_twice_one_row :
  forall (db : database) (ip hostname : option string) (domain : string)
         (os : option string)
         (smbv1 signing spooler zerologon petitpotam dc : option bool),
    rowid_ordered (ComputersTable db) ->
    (List.length (hosts_with_ip db ip) <= 1)%nat ->
    let db1 := add_computer db ip hostname domain os smbv1 signing spooler
                 zerologon petitpotam dc in
    let db2 := add_computer db1 ip hostname domain os smbv1 signing spooler
                 zerologon petitpotam dc in
    List.length (hosts_with_ip db2 ip) = 1%nat /\ db2 = db1.
Proof.
  intros db ip hostname domain os smbv1 signing spooler zerologon petitpotam
    dc Hwf Hle db1 db2.
  assert (E : db2 = db1) by (apply add_computer_idempotent; exact Hwf).
  split; [|exact E]. rewrite E; unfold db1.
  rewrite hosts_after_add by exact Hwf.
  destruct (hosts_with_ip db ip) as [|h [|h' hs]]; simpl in *;
    [reflexivity|reflexivity|lia].
Qed.

Lemma add_computer_twice_one_row_witness :
  List.length
    (hosts_with_ip
       (add_computer
          (add_computer empty_database (Some "10.0.0.5") (Some "DC01")
             "corp.local" None None None None None None None)
          (Some "10.0.0.5") (Some "DC01") "corp.local" None None None None
          None None None)
       (Some "10.0.0.5"))
  = 1%nat.
Proof.
  apply (add_computer_twice_one_row empty_database (Some "10.0.0.5")
           (Some "DC01") "corp.local" None None None None None None None).
  - reflexivity.
  - simpl; lia.
Defined.

(** ** Credential upsert *)

Lemma filter_id_absent {D} (t : table D) (n : Z) :
  ~ In n (ids t) -> List.filter (fun r => sql_id_eq (id r) (VInt n)) t = [].
Proof.
  intros H; induction t as [|x t IH]; simpl; [reflexivity|].
  destruct (Z.eqb_spec (id x) n) as [E|N].
  - exfalso; apply H; left; exact E.
  - apply IH; intros Hn; apply H; right; exact Hn.
Qed.

Lemma is_group_valid_absent (db : database) (g : Z) :
  ~ In g (ids (GroupsTable db)) -> is_group_valid db (VInt g) = false.
Proof.
  intros H; unfold is_group_valid, Query.first.
  rewrite all_filter1, (filter_id_absent _ _ H); reflexivity.
Qed.

(** What the update loop of [add_credential] comes to.  Without a bare
    match nothing is written.  With one, the first [UPDATE] rewrites every
    row of [users], and fetching from its result raises; when [groupid] or
    [pillaged_from] is in [credential_data] the statement fails before it
    writes. *)
Lemma update_loop (cd : CredentialData.t) (group_id : option Z)
    (results : list (row User.data)) (user_rowid : option Z)
    (db : database) :
  for_each results (complete_placeholder cd group_id) user_rowid db
  = if existsb bare results then
      match CredentialData.groupid cd, CredentialData.pillaged_from cd with
      | None, None =>
          (set_UsersTable
             (update_all (CredentialData.set cd) (UsersTable db)) db,
           Raised ResourceClosedError)
      | _, _ => (db, Raised CompileError)
      end
    else (db, Returned user_rowid).
Proof.
  induction results as [|user results IH]; simpl; [reflexivity|].
  unfold bind at 1, complete_placeholder at 1.
  destruct (bare user); simpl.
  - unfold bind, update_users.
    destruct (CredentialData.groupid cd), (CredentialData.pillaged_from cd);
      reflexivity.
  - exact IH.
Qed.

(** [add_credential] by its two guards: a group id that is true and names
    no group returns [None]; past that, a source that is true goes to the
    host lookup, which fails; the select and the writes come after. *)
Lemma add_credential_guards :
  forall (db : database) (credtype : option string) (domain : string)
         (username password : option string)
         (group_id pillaged_from : option Z),
    add_credential db credtype domain username password group_id
      pillaged_from
    = if truthy_int group_id && negb (is_group_valid db (of_int group_id))
      then (db, Returned None)
      else if truthy_int pillaged_from then (db, Raised AttributeError)
      else
        let domain := Some (normalize_domain domain) in
        match matching_credentials db domain username credtype with
        | [] =>
            (res <- insert_user
                      (User.Data domain username password credtype
                         (of_int pillaged_from)) ;;
             results <- first res ;;
             user_rowid <- getitem0 results ;;
             _ <- (if truthy_int group_id then
                     _ <- insert_group_relation
                            (Relation.Data (Some user_rowid) group_id) ;;
                     ret tt
                   else ret tt) ;;
             ret (Some user_rowid)) db
        | results =>
            for_each results
              (complete_placeholder
                 (CredentialData.Make credtype domain username password
                    group_id pillaged_from) group_id)
              None db
        end.
Proof.
  intros; unfold add_credential.
  destruct (truthy_int group_id && _); [reflexivity|].
  destruct (truthy_int pillaged_from); [reflexivity|].
  cbv zeta; unfold bind at 1, ret at 1.
  destruct (matching_credentials db _ username credtype); reflexivity.
Qed.

(** A report that matches only populated rows writes nothing; it returns
    no id, unless it names a source and fails in the host lookup. *)
Lemma add_credential_leaves_populated :
  forall (db : database) (credtype : option string) (domain : string)
         (username password : option string)
         (group_id pillaged_from : option Z),
    let found := matching_credentials db (Some (normalize_domain domain))
                   username credtype in
    found <> [] -> existsb bare found = false ->
    fst (add_credential db credtype domain username password group_id
           pillaged_from) = db
    /\ (truthy_int pillaged_from = false ->
        add_credential db credtype domain username password group_id
          pillaged_from = (db, Returned None)).
Proof.
  intros db credtype domain username password group_id pillaged_from found
    Hne Hbare; rewrite add_credential_guards.
  destruct (truthy_int group_id && _); [split; reflexivity|].
  destruct (truthy_int pillaged_from); [split; [reflexivity|discriminate]|].
  cbv zeta; fold found.
  destruct found as [|u us] eqn:E; [contradiction|].
  rewrite update_loop, Hbare; split; reflexivity.
Qed.

(** The guard on the group tests [group_id] for truth before it looks the
    group up: the id 0 passes for an absent argument, and the credential is
    written. *)
Lemma add_credential_writes_for_group_zero :
  is_group_valid empty_database (VInt 0) = false
  /\ UsersTable
       (fst (add_credential empty_database (Some "plaintext") "corp.local"
               (Some "bob") (Some "Passw0rd!") (Some 0) None))
     = [Row 1 (credential "CORP" "bob" "Passw0rd!" "plaintext")].
Proof. split; reflexivity. Qed.

(** C6.  A call of [add_credential] with a [group_id] other than 0 that is
    the id of no group returns [None] and leaves every table as it was.
    With a [pillaged_from] other than 0 the call gets past the group only
    to fail: the guard asks [is_computer_valid], which fails on
    [self.conn.query] whether the host exists or not.  No table is
    changed, but the call raises [AttributeError] where the claim has it
    return [None]. *)
Theorem add_credential_fails_on_any_source :
  forall (db : database) (credtype : option string) (domain : string)
         (username password : option string)
         (group_id pillaged_from : option Z),
    ((exists g, group_id = Some g /\ g <> 0
                /\ ~ In g (ids (GroupsTable db))) ->
     add_credential db credtype domain username password group_id
       pillaged_from = (db, Returned None))
    /\ (truthy_int group_id = false
        \/ is_group_valid db (of_int group_id) = true ->
        (exists h, pillaged_from = Some h /\ h <> 0) ->
        add_credential db credtype domain username password group_id
          pillaged_from = (db, Raised AttributeError)).
Proof.
  intros db credtype domain username password group_id pillaged_from.
  rewrite add_credential_guards; split.
  - intros (g & -> & Hg & Habs); simpl.
    rewrite (is_group_valid_absent _ _ Habs).
    apply Z.eqb_neq in Hg; rewrite Hg; reflexivity.
  - intros G (h & -> & Hh).
    replace (truthy_int group_id && negb (is_group_valid db (of_int group_id)))
      with false
      by (destruct G as [-> | ->];
          [reflexivity|rewrite andb_false_r; reflexivity]).
    simpl; apply Z.eqb_neq in Hh; rewrite Hh; reflexivity.
Qed.

(** A dangling group is turned away; a source is not looked up but fails,
    for a host that is stored as for one that is not. *)
Lemma add_credential_fails_on_any_source_witness :
  add_credential bob_placeholder_and_alice (Some "plaintext") "corp.local"
    (Some "carol") (Some "Passw0rd!") (Some 999) None
  = (bob_placeholder_and_alice, Returned None)
  /\ add_credential bob_placeholder_and_alice (Some "plaintext") "corp.local"
       (Some "carol") (Some "Passw0rd!") None (Some 42)
     = (bob_placeholder_and_alice, Raised AttributeError)
  /\ add_credential dc01_host (Some "plaintext") "corp.local"
       (Some "carol") (Some "Passw0rd!") None (Some 1)
     = (dc01_host, Raised AttributeError).
Proof.
  split; [|split].
  - apply add_credential_fails_on_any_source.
    exists 999; split; [reflexivity|split; [lia|]].
    simpl; tauto.
  - apply add_credential_fails_on_any_source;
      [left; reflexivity|exists 42; split; [reflexivity|lia]].
  - apply add_credential_fails_on_any_source;
      [left; reflexivity|exists 1; split; [reflexivity|lia]].
Defined.

(** C1.  Completing the placeholder of bob rewrites the row of alice as
    well: the [UPDATE] has no [WHERE], so after the call two rows match
    (CORP, bob) where the claim has one. *)
Theorem add_credential_completion_rewrites_every_row :
  let db := bob_placeholder_and_alice in
  let db' := fst (add_credential db (Some "") "corp.local" (Some "bob")
                    (Some "Passw0rd!") None None) in
  List.map bare (matching_credentials db (Some "CORP") (Some "bob") (Some ""))
  = [true]
  /\ UsersTable db'
     = [Row 1 (User.Data (Some "CORP") (Some "bob") (Some "Passw0rd!")
                 (Some "") (VStr ""));
        Row 2 (credential "CORP" "bob" "Passw0rd!" "")]
  /\ List.length
       (matching_credentials db' (Some "CORP") (Some "bob") (Some ""))
     = 2%nat.
Proof. repeat split. Qed.

(** C2.  When a placeholder is completed the rows that do not match the
    key are overwritten too: the credentials of alice and of carol, the
    second in another domain, both become copies of the report. *)
Theorem add_credential_completion_overwrites_other_rows :
  let db := bob_placeholder_alice_and_carol in
  let db' := fst (add_credential db (Some "") "CORP" (Some "bob")
                    (Some "Passw0rd!") None None) in
  List.map (@id User.data)
    (matching_credentials db (Some "CORP") (Some "bob") (Some ""))
  = [1]
  /\ nth_error (UsersTable db) 1
     = Some (Row 2 (credential "CORP" "alice" "S3cret" "plaintext"))
  /\ nth_error (UsersTable db') 1
     = Some (Row 2 (credential "CORP" "bob" "Passw0rd!" ""))
  /\ nth_error (UsersTable db) 2
     = Some (Row 3 (credential "LAB" "carol"
                      "aad3b435b51404eeaad3b435b51404ee" "hash"))
  /\ nth_error (UsersTable db') 2
     = Some (Row 3 (credential "CORP" "bob" "Passw0rd!" "")).
Proof. repeat split. Qed.

(** ** Domain normalization *)

Lemma split_head (sep : ascii) (s : string) :
  nth 0 (Str.split sep s) "" = Str.before_first sep s.
Proof.
  induction s as [|c s IH]; simpl; [reflexivity|].
  destruct (Ascii.eqb c sep); [reflexivity|].
  destruct (Str.split sep s) as [|w ws]; simpl in *; rewrite <- IH; reflexivity.
Qed.

Lemma normalize_domain_short_name (domain : string) :
  normalize_domain domain = Str.upper (Str.before_first "." domain).
Proof. unfold normalize_domain; rewrite split_head; reflexivity. Qed.

Lemma in_insert_by_rowid {D} (r x : row D) (t : table D) :
  In r (insert_by_rowid x t) -> r = x \/ In r t.
Proof.
  induction t as [|y t IH]; simpl.
  - intros [<-|[]]; left; reflexivity.
  - destruct (id x <? id y); simpl.
    + intros [<-|H]; [left; reflexivity|right; exact H].
    + intros [<-|H]; [right; left; reflexivity|].
      destruct (IH H) as [->|H']; [left; reflexivity|right; right; exact H'].
Qed.

Lemma in_insert_or_replace {D} (p : option Z * D) (t : table D) (r : row D) :
  In r (insert_or_replace p t) -> In r t \/ cols r = snd p.
Proof.
  unfold insert_or_replace, insert_row; destruct (fst p) as [i|]; intros H.
  - apply in_insert_by_rowid in H; destruct H as [->|H]; [right; reflexivity|].
    left; apply filter_In in H; tauto.
  - apply in_app_or in H; destruct H as [H|[<-|[]]]; [left; exact H|].
    right; reflexivity.
Qed.

Lemma in_fold_insert {D} (ps : list (option Z * D)) (t : table D)
    (r : row D) :
  In r (fold_left (fun t p => insert_or_replace p t) ps t) ->
  In r t \/ exists p, In p ps /\ cols r = snd p.
Proof.
  revert t; induction ps as [|p ps IH]; simpl; intros t H; [left; exact H|].
  destruct (IH _ H) as [H'|(q & Hq & E)].
  - destruct (in_insert_or_replace _ _ _ H') as [H''|E]; [left; exact H''|].
    right; exists p; split; [left; reflexivity|exact E].
  - right; exists q; split; [right; exact Hq|exact E].
Qed.

Lemma add_computer_domain :
  forall (db : database) (ip hostname : option string) (domain : string)
         (os : option string)
         (smbv1 signing spooler zerologon petitpotam dc : option bool)
         (r : row Computer.data),
    In r (ComputersTable
            (add_computer db ip hostname domain os smbv1 signing spooler
               zerologon petitpotam dc)) ->
    In r (ComputersTable db)
    \/ Computer.domain (cols r) = Some (normalize_domain domain).
Proof.
  intros db ip hostname domain os smbv1 signing spooler zerologon petitpotam
    dc r; unfold add_computer; simpl; intros H.
  apply in_fold_insert in H; destruct H as [H|(p & Hp & E)]; [left; exact H|].
  right; rewrite E; clear E.
  destruct (hosts_with_ip db ip) as [|h hs].
  - destruct Hp as [<-|[]]; reflexivity.
  - apply in_map_iff in Hp; destruct Hp as (x & <- & _).
    rewrite computer_data_of_columns; reflexivity.
Qed.

Lemma add_credential_domain :
  forall (db : database) (credtype : option string) (domain : string)
         (username password : option string)
         (group_id pillaged_from : option Z) (r : row User.data),
    In r (UsersTable
            (fst (add_credential db credtype domain username password
                    group_id pillaged_from))) ->
    In r (UsersTable db)
    \/ User.domain (cols r) = Some (normalize_domain domain).
Proof.
  intros db credtype domain username password group_id pillaged_from r.
  rewrite add_credential_guards.
  destruct (truthy_int group_id && _); [left; assumption|].
  destruct (truthy_int pillaged_from); [left; assumption|].
  cbv zeta.
  destruct (matching_credentials db _ username credtype) as [|u us].
  - simpl; unfold insert_row; intros H; apply in_app_or in H.
    destruct H as [H|[<-|[]]]; [left; exact H|right; reflexivity].
  - rewrite update_loop; simpl.
    destruct (bare u || existsb bare us); [|left; assumption].
    destruct group_id, pillaged_from; simpl; try (left; assumption).
    intros H; unfold update_all in H; apply in_map_iff in H.
    destruct H as (x & <- & _); right; reflexivity.
Qed.

(** After [add_computer] the reported ip has a row, and every row of that
    ip carries the normalized domain. *)
Lemma add_computer_stores_domain :
  forall (db : database) (ip hostname : option string) (domain : string)
         (os : option string)
         (smbv1 signing spooler zerologon petitpotam dc : option bool),
    rowid_ordered (ComputersTable db) ->
    let db' := add_computer db ip hostname domain os smbv1 signing spooler
                 zerologon petitpotam dc in
    hosts_with_ip db' ip <> []
    /\ forall r, In r (hosts_with_ip db' ip) ->
                 Computer.domain (cols r) = Some (normalize_domain domain).
Proof.
  intros db ip hostname domain os smbv1 signing spooler zerologon petitpotam
    dc Hwf db'; unfold db'; rewrite hosts_after_add by exact Hwf.
  pose proof (hosts_with_ip_filter ip db) as F.
  destruct (hosts_with_ip db ip) as [|h hs]; split; try discriminate.
  - intros r [<-|[]]; reflexivity.
  - intros r Hr; apply in_map_iff in Hr; destruct Hr as (x & <- & Hx).
    rewrite F in Hx; apply filter_In in Hx; destruct Hx as [_ S].
    unfold merged; rewrite S; reflexivity.
Qed.

(** [add_group] fails in its lookup, whatever the arguments and whatever
    the tables hold: nothing is written, and no value is returned. *)
Lemma add_group_raises (domain : string) (name : option string)
    (member_count_ad : option Z) (db : database) :
  add_group domain name member_count_ad db = (db, Raised AttributeError).
Proof. reflexivity. Qed.

(** C5.  [add_computer] and [add_credential] store the domain normalized:
    the text before the first dot, in upper case.  After [add_computer] the
    reported ip has a row and every row of that ip carries the normalized
    domain; a row [add_computer] or [add_credential] leaves in its table is
    a row that was there or carries it.  [add_group] stores no domain: it
    fails in its lookup before it writes.  [corp.local] and [CORP] both
    give [CORP]; [add_credential] sees its domain only through the
    normalized form; and a credential reported under one spelling is stored
    under the normalized domain, found, and not inserted again, when
    reported under another.  The domains are ASCII text. *)
Theorem domains_are_stored_normalized :
  (forall db ip hostname domain os smbv1 signing spooler zerologon petitpotam
          dc,
      Str.is_ascii domain = true ->
      rowid_ordered (ComputersTable db) ->
      let db' := add_computer db ip hostname domain os smbv1 signing spooler
                   zerologon petitpotam dc in
      hosts_with_ip db' ip <> []
      /\ (forall r, In r (hosts_with_ip db' ip) ->
                    Computer.domain (cols r)
                    = Some (Str.upper (Str.before_first "." domain)))
      /\ (forall r, In r (ComputersTable db') ->
                    In r (ComputersTable db)
                    \/ Computer.domain (cols r)
                       = Some (Str.upper (Str.before_first "." domain))))
  /\ (forall db credtype domain username password group_id pillaged_from r,
         Str.is_ascii domain = true ->
         In r (UsersTable
                 (fst (add_credential db credtype domain username password
                         group_id pillaged_from))) ->
         In r (UsersTable db)
         \/ User.domain (cols r)
            = Some (Str.upper (Str.before_first "." domain)))
  /\ (forall db domain name member_count_ad,
         add_group domain name member_count_ad db
         = (db, Raised AttributeError))
  /\ normalize_domain "corp.local" = "CORP"
  /\ normalize_domain "CORP" = "CORP"
  /\ (forall db credtype domain domain' username password group_id
             pillaged_from,
         normalize_domain domain = normalize_domain domain' ->
         add_credential db credtype domain username password group_id
           pillaged_from
         = add_credential db credtype domain' username password group_id
             pillaged_from)
  /\ (forall db credtype domain domain' username password password',
         Str.is_ascii domain = true -> Str.is_ascii domain' = true ->
         normalize_domain domain = normalize_domain domain' ->
         truthy_str (Some credtype) = true ->
         matching_credentials db (Some (normalize_domain domain))
           (Some username) (Some credtype) = [] ->
         let stored :=
           Row (next_rowid (UsersTable db))
             (User.Data (Some (Str.upper (Str.before_first "." domain)))
                (Some username) password (Some credtype) VNone) in
         let db1 := fst (add_credential db (Some credtype) domain
                           (Some username) password None None) in
         UsersTable db1 = (UsersTable db ++ [stored])%list
         /\ matching_credentials db1 (Some (normalize_domain domain'))
              (Some username) (Some credtype) = [stored]
         /\ add_credential db1 (Some credtype) domain' (Some username)
              password' None None = (db1, Returned None)).
Proof.
  split; [|split; [|split; [|split; [|split; [|split]]]]].
  - intros db ip hostname domain os smbv1 signing spooler zerologon
      petitpotam dc _ Hwf db'; rewrite <- normalize_domain_short_name.
    destruct (add_computer_stores_domain db ip hostname domain os smbv1
                signing spooler zerologon petitpotam dc Hwf) as [N A].
    split; [exact N|split; [exact A|]].
    intros r; apply add_computer_domain.
  - intros db credtype domain username password group_id pillaged_from r _.
    rewrite <- normalize_domain_short_name; apply add_credential_domain.
  - intros; apply add_group_raises.
  - reflexivity.
  - reflexivity.
  - intros db credtype domain domain' username password group_id
      pillaged_from E.
    unfold add_credential; rewrite E; reflexivity.
  - intros db credtype domain domain' username password password' _ _ E T M.
    rewrite <- normalize_domain_short_name; intros stored db1.
    assert (U : UsersTable db1 = (UsersTable db ++ [stored])%list).
    { unfold db1; rewrite add_credential_guards; simpl; rewrite M;
        reflexivity. }
    assert (F : matching_credentials db1 (Some (normalize_domain domain'))
                  (Some username) (Some credtype) = [stored]).
    { unfold matching_credentials in *; rewrite all_filter in *.
      rewrite U, filter_app, <- E, M; simpl.
      rewrite !String.eqb_refl; reflexivity. }
    split; [exact U|split; [exact F|]].
    apply add_credential_leaves_populated; [rewrite F; discriminate| |
                                            reflexivity].
    rewrite F; simpl; unfold bare; simpl. simpl in T; rewrite T.
    rewrite andb_false_r; reflexivity.
Qed.

Lemma domains_are_stored_normalized_witness :
  Computer.domain
    (cols (Row 1 (Computer.Data (Some "10.0.0.5") (Some "DC01") (Some "CORP")
                    None None None None None None None)))
  = Some (Str.upper (Str.before_first "." "corp.local"))
  /\ add_credential
       (fst (add_credential empty_database (Some "plaintext") "corp.local"
               (Some "bob") (Some "Passw0rd!") None None))
       (Some "plaintext") "CORP" (Some "bob") (Some "Winter2024") None None
     = (with_users [Row 1 (credential "CORP" "bob" "Passw0rd!" "plaintext")],
        Returned None).
Proof.
  destruct domains_are_stored_normalized as (C & _ & _ & _ & _ & _ & H).
  split.
  - destruct (C empty_database (Some "10.0.0.5") (Some "DC01") "corp.local"
                None None None None None None None eq_refl eq_refl)
      as (_ & A & _).
    apply A; left; reflexivity.
  - apply (H empty_database "plaintext" "corp.local" "CORP" "bob"
             (Some "Passw0rd!") (Some "Winter2024")); reflexivity.
Defined.

(** ** Group upsert *)

(** C8.  [add_group] never gets to look the group up: its first statement
    after the normalization is [self.conn.query(...)], and the session has
    no [query].  The call raises [AttributeError], whatever the arguments
    and the tables; it updates nothing, inserts nothing and returns no id.
    After the two reports of the claim the table of groups is still
    empty. *)
Theorem add_group_fails_at_lookup :
  (forall (db : database) (domain : string) (name : option string)
          (member_count_ad : option Z),
      add_group domain name member_count_ad db = (db, Raised AttributeError))
  /\ GroupsTable
       (fst (add_group "test.local" (Some "Domain Admins") (Some 7)
               (fst (add_group "test.local" (Some "Domain Admins") (Some 5)
                       empty_database))))
     = [].
Proof. split; [intros; apply add_group_raises|reflexivity]. Qed.

(** ** Admin links *)

Lemma admin_links_filter (db : database) (u h : Z) :
  admin_links db u h
  = List.filter
      (fun a => sql_eq_int (Relation.userid (cols a)) (Some u)
                && sql_eq_int (Relation.target (cols a)) (Some h))
      (AdminRelationsTable db).
Proof. apply all_filter2. Qed.

Lemma in_admin_links (db : database) (u h : Z) (a : row Relation.data) :
  In a (admin_links db u h)
  <-> In a (AdminRelationsTable db)
      /\ cols a = Relation.Data (Some u) (Some h).
Proof.
  rewrite admin_links_filter, filter_In, andb_true_iff, !sql_eq_int_iff.
  destruct a as [i [x y]]; simpl; split; intros [H E]; split; auto.
  - destruct E; congruence.
  - inversion E; auto.
Qed.

Lemma admin_links_empty (db : database) (u h : Z) :
  admin_links db u h = []
  <-> forall a, In a (AdminRelationsTable db) ->
                cols a <> Relation.Data (Some u) (Some h).
Proof.
  split.
  - intros E a Ha C.
    assert (H : In a (admin_links db u h)) by (apply in_admin_links; auto).
    rewrite E in H; destruct H.
  - intros H; destruct (admin_links db u h) as [|a l] eqn:E; [reflexivity|].
    assert (Ha : In a (admin_links db u h)) by (rewrite E; left; reflexivity).
    apply in_admin_links in Ha; destruct Ha as [Ha C].
    destruct (H a Ha C).
Qed.

Lemma add_admin_link_cases (db : database) (u h : Z) :
  (admin_links db u h = []
   /\ add_admin_link db u h
      = set_AdminRelationsTable
          (AdminRelationsTable db
           ++ [Row (next_rowid (AdminRelationsTable db))
                 (Relation.Data (Some u) (Some h))])%list db)
  \/ (admin_links db u h <> [] /\ add_admin_link db u h = db).
Proof.
  unfold add_admin_link; destruct (admin_links db u h) eqn:E.
  - left; split; reflexivity.
  - right; split; [discriminate|reflexivity].
Qed.

Lemma link_pairs_appends (pairs : list (Z * Z)) :
  forall db : database,
  exists added : table Relation.data,
    link_pairs db pairs
    = set_AdminRelationsTable (AdminRelationsTable db ++ added)%list db
    /\ (forall a, In a added ->
          exists u h, In (u, h) pairs
                      /\ cols a = Relation.Data (Some u) (Some h)
                      /\ admin_links db u h = [])
    /\ NoDup (List.map (@cols Relation.data) added)
    /\ (forall u h, In (u, h) pairs ->
          admin_links (link_pairs db pairs) u h <> []).
Proof.
  induction pairs as [|[u h] ps IH]; intros db.
  - exists []; simpl; rewrite app_nil_r; repeat split.
    + destruct db; reflexivity.
    + intros a [].
    + constructor.
    + intros u h [].
  - unfold link_pairs; simpl; fold (link_pairs (add_admin_link db u h) ps).
    destruct (IH (add_admin_link db u h)) as (added & E & Hadd & Hnd & Hall).
    assert (Mono : forall db1 extra u' h',
               admin_links db1 u' h' <> [] ->
               admin_links
                 (set_AdminRelationsTable
                    (AdminRelationsTable db1 ++ extra)%list db1) u' h' <> []).
    { intros db1 extra u' h' N C; apply N.
      rewrite admin_links_filter in *; simpl in C.
      rewrite filter_app in C; apply app_eq_nil in C; tauto. }
    destruct (add_admin_link_cases db u h) as [[L S]|[L S]]; rewrite S in *.
    + set (new := Row (next_rowid (AdminRelationsTable db))
                    (Relation.Data (Some u) (Some h))) in *.
      exists (new :: added); simpl in E; repeat split.
      * rewrite E, <- app_assoc; reflexivity.
      * intros a [<-|Ha]; [exists u, h; repeat split; auto|].
        destruct (Hadd a Ha) as (u' & h' & Hin & C & N).
        exists u', h'; repeat split; auto.
        rewrite admin_links_filter in *; simpl in N.
        rewrite filter_app in N; apply app_eq_nil in N; tauto.
      * simpl; constructor; [|exact Hnd].
        intros Hin; apply in_map_iff in Hin; destruct Hin as (a & C & Ha).
        destruct (Hadd a Ha) as (u' & h' & _ & C' & N).
        rewrite admin_links_empty in N.
        apply (N new); [simpl; apply in_or_app; right; left; reflexivity|].
        simpl; congruence.
      * intros u' h' [P|P]; [|apply Hall; exact P].
        inversion P; subst u' h'. rewrite E; apply Mono.
        intros C; rewrite admin_links_empty in C.
        apply (C new); [simpl; apply in_or_app; right; left; reflexivity|].
        reflexivity.
    + exists added; repeat split; auto.
      * intros a Ha; destruct (Hadd a Ha) as (u' & h' & Hin & C & N).
        exists u', h'; repeat split; auto.
      * intros u' h' [P|P]; [|apply Hall; exact P].
        inversion P; subst u' h'. rewrite E; apply Mono; exact L.
Qed.

Lemma link_pairs_fixed (pairs : list (Z * Z)) (db : database) :
  (forall u h, In (u, h) pairs -> admin_links db u h <> []) ->
  link_pairs db pairs = db.
Proof.
  revert db; induction pairs as [|[u h] ps IH]; intros db H; [reflexivity|].
  unfold link_pairs; simpl; fold (link_pairs (add_admin_link db u h) ps).
  destruct (add_admin_link_cases db u h) as [[L _]|[_ S]].
  - destruct (H u h (or_introl eq_refl) L).
  - rewrite S; apply IH; intros u' h' P; apply H; right; exact P.
Qed.

Lemma add_admin_user_link_pairs :
  forall (db : database) (credtype : option string) (domain : string)
         (username password : option string) (host : string)
         (user_id : option Z),
    add_admin_user db credtype domain username password host user_id
    = link_pairs db
        (zipped_ids
           (admin_users db credtype domain username password user_id)
           (admin_hosts db host)).
Proof.
  intros; unfold add_admin_user, link_pairs, zipped_ids.
  generalize (admin_users db credtype domain username password user_id)
    as users.
  generalize (admin_hosts db host) as hosts.
  generalize db as d.
  intros d hosts users; revert d hosts.
  induction users as [|u users IH]; intros d [|h hosts]; simpl;
    try reflexivity.
  apply IH.
Qed.

Lemma filter_at_most_one {A B} (f : A -> B) (p : A -> bool) (c : B)
    (l : list A) :
  NoDup (List.map f l) -> (forall x, In x l -> p x = true -> f x = c) ->
  (List.length (List.filter p l) <= 1)%nat.
Proof.
  induction l as [|a l IH]; simpl; intros Hnd H; [lia|].
  inversion Hnd as [|? ? Hn Hnd']; subst.
  assert (IH' : (List.length (List.filter p l) <= 1)%nat)
    by (apply IH; auto).
  destruct (p a) eqn:P; [|exact IH']; simpl.
  destruct (List.filter p l) as [|b l'] eqn:F; [simpl; lia|].
  exfalso; apply Hn.
  assert (Hb : In b (List.filter p l)) by (rewrite F; left; reflexivity).
  apply filter_In in Hb; destruct Hb as [Hb Pb].
  rewrite (H a (or_introl eq_refl) P), <- (H b (or_intror Hb) Pb).
  apply in_map; exact Hb.
Qed.

(** C7, as stated, fails when the two selections differ in length: one
    credential and two hosts are resolved, the product has the pairs (1, 1)
    and (1, 2), and only the first is linked. *)
Lemma add_admin_user_skips_second_host :
  List.map (@id User.data)
    (admin_users bob_and_two_hosts (Some "plaintext") "corp.local"
       (Some "bob") (Some "Passw0rd!") None) = [1]
  /\ List.map (@id Computer.data) (admin_hosts bob_and_two_hosts "10.0.0.5")
     = [1; 2]
  /\ AdminRelationsTable
       (add_admin_user bob_and_two_hosts (Some "plaintext") "corp.local"
          (Some "bob") (Some "Passw0rd!") "10.0.0.5" None)
     = [Row 1 (Relation.Data (Some 1) (Some 1))]
  /\ admin_links
       (add_admin_user bob_and_two_hosts (Some "plaintext") "corp.local"
          (Some "bob") (Some "Passw0rd!") "10.0.0.5" None) 1 2 = [].
Proof. repeat split. Qed.

(** C7, amended.  [add_admin_user] pairs the resolved credentials with the
    resolved hosts by position, the first with the first and so on to the
    end of the shorter list.  The [admin_relations] table afterwards is the
    old one followed by new rows only: each new row links one of these
    pairs that had no link, no pair gets two, and every pair is linked.  A
    pair without a link before has exactly one after, and a second identical
    call changes nothing. *)
Theorem add_admin_user_links_zipped_pairs :
  forall (db : database) (credtype : option string) (domain : string)
         (username password : option string) (host : string)
         (user_id : option Z),
    let pairs :=
      zipped_ids (admin_users db credtype domain username password user_id)
        (admin_hosts db host) in
    let db' := add_admin_user db credtype domain username password host
                 user_id in
    exists added : table Relation.data,
      db' = set_AdminRelationsTable (AdminRelationsTable db ++ added)%list db
      /\ (forall a, In a added ->
            exists u h, In (u, h) pairs
                        /\ cols a = Relation.Data (Some u) (Some h)
                        /\ admin_links db u h = [])
      /\ NoDup (List.map (@cols Relation.data) added)
      /\ (forall u h, In (u, h) pairs -> admin_links db' u h <> [])
      /\ (forall u h, In (u, h) pairs -> admin_links db u h = [] ->
            List.length (admin_links db' u h) = 1%nat)
      /\ add_admin_user db' credtype domain username password host user_id
         = db'.
Proof.
  intros db credtype domain username password host user_id pairs db'.
  assert (Edb : db' = link_pairs db pairs)
    by apply add_admin_user_link_pairs.
  destruct (link_pairs_appends pairs db) as (added & E & Hadd & Hnd & Hall).
  rewrite <- Edb in E, Hall.
  exists added; repeat split; auto.
  - intros u h P N.
    pose proof (Hall u h P) as L.
    rewrite admin_links_filter in *; rewrite E in *; simpl in *.
    rewrite filter_app, N in *; simpl in *.
    assert ((List.length
               (List.filter
                  (fun a => sql_eq_int (Relation.userid (cols a)) (Some u)
                            && sql_eq_int (Relation.target (cols a)) (Some h))
                  added) <= 1)%nat).
    { apply (filter_at_most_one (@cols Relation.data) _
               (Relation.Data (Some u) (Some h))); [exact Hnd|].
      intros a _ T.
      apply andb_true_iff in T; rewrite !sql_eq_int_iff in T.
      destruct a as [i [x y]]; simpl in *; destruct T; congruence. }
    destruct (List.filter _ added); simpl in *; [congruence|lia].
  - rewrite add_admin_user_link_pairs.
    replace (zipped_ids _ _) with pairs by (rewrite E; reflexivity).
    apply link_pairs_fixed; exact Hall.
Qed.

Lemma add_admin_user_links_zipped_pairs_witness :
  add_admin_user
    (add_admin_user bob_and_two_hosts (Some "plaintext") "corp.local"
       (Some "bob") (Some "Passw0rd!") "10.0.0.5" None)
    (Some "plaintext") "corp.local" (Some "bob") (Some "Passw0rd!")
    "10.0.0.5" None
  = add_admin_user bob_and_two_hosts (Some "plaintext") "corp.local"
      (Some "bob") (Some "Passw0rd!") "10.0.0.5" None.
Proof.
  destruct (add_admin_user_links_zipped_pairs bob_and_two_hosts
              (Some "plaintext") "corp.local" (Some "bob")
              (Some "Passw0rd!") "10.0.0.5" None)
    as (added & _ & _ & _ & _ & _ & H).
  exact H.
Defined.

(** ** Reading hosts *)

(** C9.  [get_computers] chooses no branch: before the first test it asks
    [is_computer_valid] whether the term is an id, and that lookup is
    [self.conn.query(...)] on a session that has no [query].  Every call
    raises [AttributeError] and returns no row: not by id, not for [dc],
    not by ip or hostname, not for an empty term. *)
Theorem get_computers_fails_at_validity_check :
  forall (db : database) (filter_term : value) (domain : option string),
    is_computer_valid filter_term db = (db, Raised AttributeError)
    /\ get_computers filter_term domain db = (db, Raised AttributeError).
Proof. intros; split; reflexivity. Qed.

(** * The rest of the class: properties *)

(** ** Fresh rows *)

Lemma next_rowid_fresh {D} (t : table D) : ~ In (next_rowid t) (ids t).
Proof. intros H; apply next_rowid_above in H; lia. Qed.

Lemma filter_id_inserted {D} (t : table D) (d : D) :
  List.filter (fun r => sql_id_eq (id r) (VInt (next_rowid t)))
    (insert_row d t)
  = [Row (next_rowid t) d].
Proof.
  unfold insert_row; rewrite filter_app.
  rewrite (filter_id_absent t _ (next_rowid_fresh t)); simpl.
  rewrite Z.eqb_refl; reflexivity.
Qed.

(** ** Shares *)

Lemma share_conflict_sym (a b : Share.data) (i j : Z) :
  share_conflict a (Row i b) = share_conflict b (Row j a).
Proof.
  destruct a as [ac au an ar ard aw], b as [bc bu bn br brd bw].
  unfold share_conflict; simpl.
  destruct ac, au, an, bc, bu, bn; simpl;
    rewrite ?andb_false_r; try reflexivity;
    (apply f_equal2; [apply f_equal2|]);
    first [apply Z.eqb_sym | apply String.eqb_sym].
Qed.

Lemma unique_shares_snoc (t : table Share.data) (new : row Share.data) :
  unique_shares t = true ->
  existsb (share_conflict (cols new)) t = false ->
  unique_shares (t ++ [new])%list = true.
Proof.
  induction t as [|s t IH]; simpl; intros U C; [reflexivity|].
  apply andb_prop in U; destruct U as [U1 U2].
  apply orb_false_elim in C; destruct C as [C1 C2].
  rewrite existsb_app, (IH U2 C2); simpl.
  apply negb_true_iff in U1; rewrite U1; simpl.
  destruct s as [i a], new as [j b]; simpl in *.
  rewrite (share_conflict_sym a b j i), C1; reflexivity.
Qed.

(** X1.  [add_share] of a share whose key is not taken returns the id of
    the row it appends; the id is then valid, and [get_shares] by that id
    returns exactly the new row, with the host id kept as text. *)
Theorem add_share_then_lookup :
  forall (db : database) (computer_id : value) (user_id : option Z)
         (name remark : option string) (read write : option bool),
    let stored :=
      Share.Data (text_affinity computer_id) user_id name remark read write in
    existsb (share_conflict stored) (SharesTable db) = false ->
    let share_id := next_rowid (SharesTable db) in
    let db' := fst (add_share db computer_id user_id name remark read write) in
    snd (add_share db computer_id user_id name remark read write)
    = Done share_id
    /\ SharesTable db' = (SharesTable db ++ [Row share_id stored])%list
    /\ is_share_valid db' (VInt share_id) = true
    /\ get_shares db' (VInt share_id) = [Row share_id stored].
Proof.
  intros db computer_id user_id name remark read write stored C share_id db'.
  unfold db', add_share; fold stored; rewrite C; simpl.
  assert (F : List.filter (fun s => sql_id_eq (id s) (VInt share_id))
                (insert_row stored (SharesTable db)) = [Row share_id stored])
    by apply filter_id_inserted.
  assert (V : is_share_valid
                (set_SharesTable (insert_row stored (SharesTable db)) db)
                (VInt share_id) = true).
  { unfold is_share_valid; rewrite all_filter1; simpl SharesTable.
    rewrite F; reflexivity. }
  repeat split; [exact V|].
  unfold get_shares; rewrite V, all_filter1; exact F.
Qed.

Lemma add_share_then_lookup_witness :
  get_shares
    (fst (add_share empty_database (VInt 1) (Some 1) (Some "ADMIN$")
            (Some "Remote Admin") (Some true) (Some false)))
    (VInt 1)
  = [Row 1 (Share.Data (VStr "1") (Some 1) (Some "ADMIN$")
              (Some "Remote Admin") (Some true) (Some false))].
Proof.
  apply (add_share_then_lookup empty_database (VInt 1) (Some 1)
           (Some "ADMIN$") (Some "Remote Admin") (Some true) (Some false)).
  reflexivity.
Defined.

(** X2.  [add_share] keeps the key (host, user, name) unique: from a table
    without two rows on one key it leaves such a table, and a share whose
    key is taken is refused with the table as it was. *)
Theorem add_share_keeps_keys_unique :
  forall (db : database) (computer_id : value) (user_id : option Z)
         (name remark : option string) (read write : option bool),
    unique_shares (SharesTable db) = true ->
    unique_shares
      (SharesTable
         (fst (add_share db computer_id user_id name remark read write)))
    = true
    /\ (existsb
          (share_conflict
             (Share.Data (text_affinity computer_id) user_id name remark read
                write))
          (SharesTable db) = true ->
        add_share db computer_id user_id name remark read write
        = (db, Failed IntegrityError)).
Proof.
  intros db computer_id user_id name remark read write U; unfold add_share.
  destruct (existsb _ (SharesTable db)) eqn:C; simpl.
  - split; [exact U|reflexivity].
  - split; [|discriminate].
    apply unique_shares_snoc; [exact U|exact C].
Qed.

Lemma add_share_keeps_keys_unique_witness :
  add_share
    (fst (add_share empty_database (VInt 1) (Some 1) (Some "ADMIN$")
            (Some "Remote Admin") (Some true) (Some false)))
    (VStr "1") (Some 1) (Some "ADMIN$") None (Some true) (Some true)
  = (fst (add_share empty_database (VInt 1) (Some 1) (Some "ADMIN$")
            (Some "Remote Admin") (Some true) (Some false)),
     Failed IntegrityError).
Proof.
  apply (add_share_keeps_keys_unique
           (fst (add_share empty_database (VInt 1) (Some 1) (Some "ADMIN$")
                   (Some "Remote Admin") (Some true) (Some false)))
           (VStr "1") (Some 1) (Some "ADMIN$") None (Some true) (Some true));
    reflexivity.
Defined.

(** ** Rows by id *)

Lemma filter_none {A} (p : A -> bool) (l : list A) :
  (forall x, In x l -> p x = false) -> List.filter p l = [].
Proof.
  induction l as [|a l IH]; intros H; simpl; [reflexivity|].
  rewrite (H a (or_introl eq_refl)); apply IH.
  intros x Hx; apply H; right; exact Hx.
Qed.

Lemma filter_id_at_most_one {D} (t : table D) (u : Z) :
  rowid_ordered t ->
  (List.length (List.filter (fun r => sql_id_eq (id r) (VInt u)) t) <= 1)%nat.
Proof.
  induction t as [|x t IH]; intros Hwf; simpl; [lia|].
  apply rowid_ordered_cons in Hwf; destruct Hwf as [Hx Hwf].
  destruct (Z.eqb_spec (id x) u) as [E|N]; [|apply IH; exact Hwf].
  rewrite filter_none; [simpl; lia|].
  intros y Hy; pose proof (above_lt _ _ _ Hx Hy).
  apply Z.eqb_neq; lia.
Qed.

Lemma filter_id_exact {D} (t : table D) (r : row D) :
  rowid_ordered t -> In r t ->
  List.filter (fun x => sql_id_eq (id x) (VInt (id r))) t = [r].
Proof.
  intros Hwf Hr.
  pose proof (filter_id_at_most_one t (id r) Hwf) as L.
  assert (Hin : In r (List.filter (fun x => sql_id_eq (id x) (VInt (id r))) t)).
  { apply filter_In; split; [exact Hr|apply Z.eqb_refl]. }
  destruct (List.filter _ t) as [|a [|b l]]; simpl in *.
  - destruct Hin.
  - destruct Hin as [->|[]]; reflexivity.
  - lia.
Qed.

Lemma filter_id_present {D} (t : table D) (r : row D) :
  In r t ->
  (0 <? List.length (List.filter (fun x => sql_id_eq (id x) (VInt (id r))) t))%nat
  = true.
Proof.
  intros Hr.
  assert (Hin : In r (List.filter (fun x => sql_id_eq (id x) (VInt (id r))) t))
    by (apply filter_In; split; [exact Hr|apply Z.eqb_refl]).
  destruct (List.filter _ t); [destruct Hin|reflexivity].
Qed.

(** ** Reading shares *)

Lemma sql_like_contains (column : option string) (term : string) :
  Str.no_wildcard term = true ->
  sql_like (option_map Str.lower column) (Str.lower ("%" ++ term ++ "%"))
  = match column with
    | Some c => Str.contains_nocase term c
    | None => false
    end.
Proof.
  intros W; destruct column as [c|]; [|reflexivity].
  cbn [option_map sql_like].
  rewrite like_lower; apply like_percent_term_percent; exact W.
Qed.

(** X3.  [get_shares] with a text that is no share id, is not empty and
    holds no wildcard returns the shares whose name contains the text, the
    case of letters apart, in table order.  The text is any but one written
    as a real number, which SQLite rounds before it looks for the id. *)
Theorem get_shares_by_name :
  forall (db : database) (term : string),
    id_operand_exact (VStr term) = true ->
    is_share_valid db (VStr term) = false ->
    String.eqb term "" = false ->
    Str.no_wildcard term = true ->
    get_shares db (VStr term)
    = List.filter
        (fun s => match Share.name (cols s) with
                  | Some name => Str.contains_nocase term name
                  | None => false
                  end)
        (SharesTable db).
Proof.
  intros db term _ V N W; unfold get_shares; rewrite V.
  cbn [truthy str]; rewrite N; cbn [negb].
  rewrite all_filter1; apply filter_ext; intros s.
  apply sql_like_contains; exact W.
Qed.

Lemma get_shares_by_name_witness :
  get_shares
    (fst (add_share empty_database (VInt 1) (Some 1) (Some "ADMIN$")
            (Some "Remote Admin") (Some true) (Some false)))
    (VStr "admin")
  = [Row 1 (Share.Data (VStr "1") (Some 1) (Some "ADMIN$")
              (Some "Remote Admin") (Some true) (Some false))].
Proof.
  rewrite (get_shares_by_name
             (fst (add_share empty_database (VInt 1) (Some 1) (Some "ADMIN$")
                     (Some "Remote Admin") (Some true) (Some false)))
             "admin"); reflexivity.
Defined.

(** A term written as an integer that is the id of a share is answered by
    id, also with white space or a sign around the digits. *)
Example get_shares_by_id_text :
  let db := fst (add_share empty_database (VInt 1) (Some 1) (Some "ADMIN$")
                   None None None) in
  List.map (fun term => List.length (get_shares db (VStr term)))
    ["1"; " 1"; "+1"; "1.0"; "1e0"; "2"; "x"]
  = [1; 1; 1; 1; 1; 0; 0]%nat.
Proof. reflexivity. Qed.

Lemma in_insert_by_userid (s x : row Share.data)
    (l : list (row Share.data)) :
  In x (insert_by_userid s l) <-> x = s \/ In x l.
Proof.
  induction l as [|y l IH]; simpl; [intuition congruence|].
  destruct (userid_le _ _); simpl; [rewrite IH|]; intuition congruence.
Qed.

Lemma length_insert_by_userid (s : row Share.data)
    (l : list (row Share.data)) :
  List.length (insert_by_userid s l) = S (List.length l).
Proof.
  induction l as [|y l IH]; simpl; [reflexivity|].
  destruct (userid_le _ _); simpl; [rewrite IH|]; reflexivity.
Qed.

(** The order of the index holds the same rows, as many. *)
Lemma in_index_order (x : row Share.data) (l : list (row Share.data)) :
  In x (index_order l) <-> In x l.
Proof.
  unfold index_order.
  assert (G : forall sorted,
             In x (fold_left (fun sorted s => insert_by_userid s sorted) l
                     sorted)
             <-> In x sorted \/ In x l).
  { induction l as [|s l IH]; intros sorted; simpl; [tauto|].
    rewrite IH, in_insert_by_userid; intuition congruence. }
  rewrite G; simpl; tauto.
Qed.

Lemma length_index_order (l : list (row Share.data)) :
  List.length (index_order l) = List.length l.
Proof.
  unfold index_order.
  assert (G : forall sorted,
             List.length
               (fold_left (fun sorted s => insert_by_userid s sorted) l sorted)
             = (List.length sorted + List.length l)%nat).
  { induction l as [|s l IH]; intros sorted; simpl; [lia|].
    rewrite IH, length_insert_by_userid; lia. }
  rewrite G; reflexivity.
Qed.

(** X4.  [get_users_with_share_access] does not look at the permissions:
    it returns the user of every share with the given name on the given
    host, one entry for each such share, readable or not, whatever letters
    [permissions] holds. *)
Theorem get_users_with_share_access_ignores_permissions :
  forall (db : database) (computer_id : value) (share_name : option string)
         (permissions : string),
    bindable computer_id = true ->
    let found :=
      List.filter
        (fun s => sql_eq (Share.name (cols s)) share_name
                  && sql_eq_text (Share.computerid (cols s)) computer_id)
        (SharesTable db) in
    (forall user,
        In user
           (get_users_with_share_access db computer_id share_name permissions)
        <-> exists s, In s found /\ Share.userid (cols s) = user)
    /\ List.length
         (get_users_with_share_access db computer_id share_name permissions)
       = List.length found
    /\ forall permissions' : string,
         get_users_with_share_access db computer_id share_name permissions
         = get_users_with_share_access db computer_id share_name permissions'.
Proof.
  assert (H : forall db computer_id share_name permissions,
             get_users_with_share_access db computer_id share_name permissions
             = List.map (fun s => Share.userid (cols s))
                 (index_order
                    (List.filter
                       (fun s => sql_eq (Share.name (cols s)) share_name
                                 && sql_eq_text (Share.computerid (cols s))
                                      computer_id)
                       (SharesTable db)))).
  { intros; unfold get_users_with_share_access; cbv zeta.
    rewrite all_filter2; reflexivity. }
  intros db computer_id share_name permissions _ found; split; [|split].
  - intros user; rewrite H, in_map_iff; fold found.
    split; intros (s & A & B); exists s.
    + split; [apply in_index_order; exact B|exact A].
    + split; [exact B|apply in_index_order; exact A].
  - rewrite H, length_map, length_index_order; reflexivity.
  - intros permissions'; rewrite !H; reflexivity.
Qed.

Lemma get_users_with_share_access_ignores_permissions_witness :
  get_users_with_share_access
    (fst (add_share empty_database (VInt 1) (Some 7) (Some "C$") None
            (Some false) (Some false)))
    (VInt 1) (Some "C$") "rw"
  = get_users_with_share_access
      (fst (add_share empty_database (VInt 1) (Some 7) (Some "C$") None
              (Some false) (Some false)))
      (VInt 1) (Some "C$") "".
Proof.
  destruct (get_users_with_share_access_ignores_permissions
              (fst (add_share empty_database (VInt 1) (Some 7) (Some "C$")
                      None (Some false) (Some false)))
              (VInt 1) (Some "C$") "rw" eq_refl) as (_ & _ & H).
  apply H.
Defined.

(** A user whose share is neither readable nor writable is returned for
    the permission [rw]. *)
Example closed_share_is_reported :
  get_users_with_share_access
    (fst (add_share empty_database (VInt 1) (Some 7) (Some "C$") None
            (Some false) (Some false)))
    (VInt 1) (Some "C$") "rw"
  = [Some 7].
Proof. reflexivity. Qed.

(** The users come in the order of the index, not of the table. *)
Example share_users_in_index_order :
  get_users_with_share_access
    (Database [] [] []
       [Row 1 (Share.Data (VStr "1") (Some 9) (Some "C$") None None None);
        Row 2 (Share.Data (VStr "1") (Some 3) (Some "C$") None None None);
        Row 3 (Share.Data (VStr "1") (Some 5) (Some "C$") None None None)]
       [] [] [])
    (VInt 1) (Some "C$") ""
  = [Some 3; Some 5; Some 9].
Proof. reflexivity. Qed.

(** ** Reading credentials *)

Lemma all_filter_true {D} (t : table D) (p : row D -> bool) :
  Query.all (Query.filter (Query.select t) [p; fun _ => true])
  = List.filter p t.
Proof.
  rewrite all_filter2; apply filter_ext; intros r; apply andb_true_r.
Qed.

(** X5.  The password test of [is_credential_valid] tests nothing: a
    credential id is valid exactly when it is a user id, and the id of a
    stored row is a valid credential id also when the row holds no
    password. *)
Theorem is_credential_valid_is_user_valid :
  forall (db : database) (credential_id : value),
    is_credential_valid db credential_id = is_user_valid db credential_id
    /\ forall u, In u (UsersTable db) ->
                 User.password (cols u) = None ->
                 is_credential_valid db (VInt (id u)) = true.
Proof.
  intros db v; split.
  - unfold is_credential_valid, is_user_valid.
    rewrite all_filter_true, all_filter1; reflexivity.
  - intros u Hin _; unfold is_credential_valid.
    rewrite all_filter_true; apply filter_id_present, Hin.
Qed.

(** A row without a password is a valid credential. *)
Example credential_without_password_is_valid :
  is_credential_valid
    (with_users [Row 1 (User.Data (Some "CORP") (Some "bob") None None VNone)])
    (VInt 1) = true.
Proof. reflexivity. Qed.

Lemma is_credential_valid_eq (db : database) (v : value) :
  is_credential_valid db v = is_user_valid db v.
Proof.
  unfold is_credential_valid, is_user_valid.
  rewrite all_filter_true, all_filter1; reflexivity.
Qed.

(** X6.  With a credential type, and a term that is no id, [get_credentials]
    returns the rows of exactly that type (the case of letters counts) and
    does not look at the term.  The term is any but text written as a real
    number. *)
Theorem get_credentials_by_type :
  forall (db : database) (filter_term : value) (cred_type : string),
    id_operand_exact filter_term = true ->
    is_user_valid db filter_term = false ->
    String.eqb cred_type "" = false ->
    get_credentials db filter_term (Some cred_type)
    = List.filter
        (fun u => match User.credtype (cols u) with
                  | Some t => String.eqb t cred_type
                  | None => false
                  end)
        (UsersTable db).
Proof.
  intros db v t _ V N; unfold get_credentials.
  rewrite is_credential_valid_eq, V.
  cbn [truthy_str]; rewrite N; cbn [negb].
  rewrite all_filter1; apply filter_ext; intros u.
  destruct (User.credtype (cols u)); reflexivity.
Qed.

Lemma get_credentials_by_type_witness :
  get_credentials bob_placeholder_alice_and_carol (VStr "alice") (Some "hash")
  = [Row 3 (credential "LAB" "carol" "aad3b435b51404eeaad3b435b51404ee"
              "hash")].
Proof.
  rewrite (get_credentials_by_type bob_placeholder_alice_and_carol
             (VStr "alice") "hash"); reflexivity.
Defined.

(** X7.  Without a credential type, [get_credentials] with a text that is
    no user id, is not empty and holds no wildcard returns the rows whose
    username contains the text, the case of letters apart.  The text is any
    but one written as a real number. *)
Theorem get_credentials_by_name :
  forall (db : database) (term : string) (cred_type : option string),
    id_operand_exact (VStr term) = true ->
    is_user_valid db (VStr term) = false ->
    truthy_str cred_type = false ->
    String.eqb term "" = false ->
    Str.no_wildcard term = true ->
    get_credentials db (VStr term) cred_type
    = List.filter
        (fun u => match User.username (cols u) with
                  | Some name => Str.contains_nocase term name
                  | None => false
                  end)
        (UsersTable db).
Proof.
  intros db term cred_type _ V T N W; unfold get_credentials.
  rewrite is_credential_valid_eq, V, T.
  cbn [truthy str value_eqb]; rewrite N; cbn [negb andb].
  rewrite all_filter1; apply filter_ext; intros u.
  apply sql_like_contains; exact W.
Qed.

Lemma get_credentials_by_name_witness :
  get_credentials bob_placeholder_alice_and_carol (VStr "LIC") None
  = [Row 2 (credential "CORP" "alice" "S3cret" "plaintext")].
Proof.
  rewrite (get_credentials_by_name bob_placeholder_alice_and_carol "LIC"
             None); reflexivity.
Defined.

(** ** Admin links read back *)

Lemma in_get_admin_relations_by_user (db : database) (u : Z)
    (a : row Relation.data) :
  u <> 0 ->
  (In a (get_admin_relations db (Some u) None)
   <-> In a (AdminRelationsTable db) /\ Relation.userid (cols a) = Some u).
Proof.
  intros N; unfold get_admin_relations; cbn [truthy_int].
  apply Z.eqb_neq in N; rewrite N; cbn [negb].
  rewrite all_filter1, filter_In, sql_eq_int_iff; reflexivity.
Qed.

(** X9.  Every pair [add_admin_user] visits can be read back: for a
    credential id other than 0, [get_admin_relations] by that credential
    holds a link to the paired host afterwards. *)
Theorem admin_links_are_read_back :
  forall (db : database) (credtype : option string) (domain : string)
         (username password : option string) (host : string)
         (user_id : option Z) (u h : Z),
    In (u, h)
       (zipped_ids (admin_users db credtype domain username password user_id)
          (admin_hosts db host)) ->
    u <> 0 ->
    exists a,
      In a (get_admin_relations
              (add_admin_user db credtype domain username password host
                 user_id) (Some u) None)
      /\ cols a = Relation.Data (Some u) (Some h).
Proof.
  intros db credtype domain username password host user_id u h P N.
  rewrite add_admin_user_link_pairs.
  destruct (link_pairs_appends
              (zipped_ids
                 (admin_users db credtype domain username password user_id)
                 (admin_hosts db host)) db) as (_ & _ & _ & _ & L).
  specialize (L u h P).
  destruct (admin_links _ u h) as [|a l] eqn:E; [congruence|].
  assert (Ha : In a (admin_links
                       (link_pairs db
                          (zipped_ids
                             (admin_users db credtype domain username
                                password user_id) (admin_hosts db host)))
                       u h)) by (rewrite E; left; reflexivity).
  apply in_admin_links in Ha; destruct Ha as [Ha C].
  exists a; split; [|exact C].
  apply in_get_admin_relations_by_user; [exact N|].
  split; [exact Ha|rewrite C; reflexivity].
Qed.

Lemma admin_links_are_read_back_witness :
  exists a,
    In a (get_admin_relations
            (add_admin_user bob_and_two_hosts (Some "plaintext") "corp.local"
               (Some "bob") (Some "Passw0rd!") "10.0.0.5" None)
            (Some 1) None)
    /\ cols a = Relation.Data (Some 1) (Some 1).
Proof.
  apply (admin_links_are_read_back bob_and_two_hosts (Some "plaintext")
           "corp.local" (Some "bob") (Some "Passw0rd!") "10.0.0.5" None 1 1).
  - left; reflexivity.
  - lia.
Defined.

(** ** Group relations *)

(** X11.  [get_group_relations] with a user id alone selects on the id of
    the relation, not on its user: from a table in rowid order it returns
    at most one row, the relation numbered like the user, whoever it
    belongs to.  With neither argument it raises, [q] being unbound. *)
Theorem get_group_relations_selects_on_relation_id :
  forall (db : database) (u : Z),
    u <> 0 -> rowid_ordered (GroupRelationsTable db) ->
    exists found,
      get_group_relations (Some u) None db = (db, Returned found)
      /\ (List.length found <= 1)%nat
      /\ (forall r, In r found
                    <-> In r (GroupRelationsTable db) /\ id r = u)
      /\ get_group_relations None None db = (db, Raised UnboundLocalError).
Proof.
  intros db u N Hwf; unfold get_group_relations; cbn [truthy_int andb].
  apply Z.eqb_neq in N; rewrite N; cbn [negb andb of_int].
  rewrite all_filter1; eexists; split; [reflexivity|]; repeat split.
  - apply filter_id_at_most_one; exact Hwf.
  - apply filter_In in H; tauto.
  - apply filter_In in H; destruct H as [_ H]; apply Z.eqb_eq, H.
  - intros [H E]; apply filter_In; split; [exact H|].
    apply Z.eqb_eq, E.
Qed.

Lemma get_group_relations_selects_on_relation_id_witness :
  exists found,
    get_group_relations (Some 1) None
      (set_GroupRelationsTable [Row 1 (Relation.Data (Some 42) (Some 7))]
         empty_database)
    = (set_GroupRelationsTable [Row 1 (Relation.Data (Some 42) (Some 7))]
         empty_database, Returned found)
    /\ (List.length found <= 1)%nat
    /\ (forall r, In r found
                  <-> In r [Row 1 (Relation.Data (Some 42) (Some 7))]
                      /\ id r = 1)
    /\ get_group_relations None None
         (set_GroupRelationsTable [Row 1 (Relation.Data (Some 42) (Some 7))]
            empty_database)
       = (set_GroupRelationsTable [Row 1 (Relation.Data (Some 42) (Some 7))]
            empty_database, Raised UnboundLocalError).
Proof.
  apply (get_group_relations_selects_on_relation_id
           (set_GroupRelationsTable
              [Row 1 (Relation.Data (Some 42) (Some 7))] empty_database) 1).
  - lia.
  - reflexivity.
Defined.

(** ** The methods written against [self.conn.query] *)

(** X8.  No removal removes.  [remove_credentials] with an id to remove,
    [remove_admin_relation] with a credential or a host to unlink and
    [remove_group_relations] with a user or a group each fail on
    [self.conn.query] before the first delete; with nothing to remove they
    return.  Either way every table is as it was. *)
Theorem removals_remove_nothing :
  forall db : database,
    (forall creds_id,
        remove_credentials creds_id db
        = (db, match creds_id with
               | [] => Returned tt
               | _ :: _ => Raised AttributeError
               end))
    /\ (forall user_ids host_ids,
           remove_admin_relation user_ids host_ids db
           = (db, match user_ids, host_ids with
                  | [], [] => Returned tt
                  | _, _ => Raised AttributeError
                  end))
    /\ (forall user_id group_id,
           remove_group_relations user_id group_id db
           = (db, if truthy_int user_id || truthy_int group_id
                  then Raised AttributeError
                  else Returned tt)).
Proof.
  intros db; split; [|split].
  - intros [|c creds_id]; reflexivity.
  - intros [|u user_ids] [|h host_ids]; reflexivity.
  - intros user_id group_id; unfold remove_group_relations.
    destruct (truthy_int user_id); [reflexivity|].
    destruct (truthy_int group_id); reflexivity.
Qed.

(** A link and the credential it names both outlive the removal of the
    credential. *)
Example credential_outlives_removal :
  let linked :=
    add_admin_user bob_and_two_hosts (Some "plaintext") "corp.local"
      (Some "bob") (Some "Passw0rd!") "10.0.0.5" None in
  remove_credentials [VInt 1] linked = (linked, Raised AttributeError)
  /\ is_user_valid linked (VInt 1) = true
  /\ get_admin_relations linked (Some 1) None
     = [Row 1 (Relation.Data (Some 1) (Some 1))].
Proof. repeat split. Qed.

(** X13.  The readers written against [self.conn.query] return no row:
    [get_users], [get_user], [get_domain_controllers] and [get_groups] fail
    with [AttributeError] for every argument and every state of the
    tables. *)
Theorem query_readers_fail :
  forall db : database,
    (forall filter_term,
        get_users filter_term db = (db, Raised AttributeError))
    /\ (forall domain username,
           get_user domain username db = (db, Raised AttributeError))
    /\ (forall domain,
           get_domain_controllers domain db = (db, Raised AttributeError))
    /\ (forall filter_term group_name group_domain,
           get_groups filter_term group_name group_domain db
           = (db, Raised AttributeError)).
Proof.
  intros db; split; [|split; [|split]].
  - intros filter_term; unfold get_users.
    destruct (is_user_valid db filter_term); [reflexivity|].
    destruct (truthy filter_term && _); reflexivity.
  - reflexivity.
  - reflexivity.
  - intros filter_term group_name group_domain; unfold get_groups; cbv zeta.
    destruct (is_group_valid db filter_term); [reflexivity|].
    destruct (truthy_str group_name && _); [reflexivity|].
    destruct (truthy filter_term && _); reflexivity.
Qed.

(** The same row is read through [get_credentials], which runs its select
    through [execute], and not through [get_users]. *)
Example users_read_through_credentials_only :
  get_credentials bob_placeholder_and_alice (VInt 2) None
  = [Row 2 (credential "CORP" "alice" "S3cret" "plaintext")]
  /\ get_users (VInt 2) bob_placeholder_and_alice
     = (bob_placeholder_and_alice, Raised AttributeError).
Proof. split; reflexivity. Qed.

(** X16.  [add_user] stores no placeholder.  With a group id other than 0
    that names no group it returns [None]; in every other case it fails on
    [self.conn.query] in the lookup of the user.  Every table is as it
    was. *)
Theorem add_user_stores_nothing :
  forall (db : database) (domain : string) (username : option string)
         (group_id : option Z),
    add_user domain username group_id db
    = (db, if truthy_int group_id
              && negb (is_group_valid db (of_int group_id))
           then Returned RowidNone
           else Raised AttributeError).
Proof.
  intros db domain username group_id; unfold add_user.
  destruct (truthy_int group_id && _); reflexivity.
Qed.

(** ** Normalized domains *)

Lemma upper_char_twice (c : ascii) :
  Str.upper_char (Str.upper_char c) = Str.upper_char c.
Proof. destruct c as [[] [] [] [] [] [] [] []]; reflexivity. Qed.

Lemma upper_char_dot (c : ascii) :
  Ascii.eqb "." (Str.upper_char c) = Ascii.eqb "." c.
Proof. destruct c as [[] [] [] [] [] [] [] []]; reflexivity. Qed.

Lemma upper_twice (s : string) : Str.upper (Str.upper s) = Str.upper s.
Proof.
  induction s as [|c s IH]; [reflexivity|].
  unfold Str.upper in *; cbn [Str.map]; rewrite upper_char_twice, IH.
  reflexivity.
Qed.

Lemma dot_in_upper (s : string) :
  Str.contains_char "." (Str.upper s) = Str.contains_char "." s.
Proof.
  induction s as [|c s IH]; [reflexivity|].
  unfold Str.upper in *; cbn [Str.map Str.contains_char].
  rewrite upper_char_dot, IH; reflexivity.
Qed.

Lemma before_first_has_none (sep : ascii) (s : string) :
  Str.contains_char sep (Str.before_first sep s) = false.
Proof.
  induction s as [|c s IH]; [reflexivity|]; cbn [Str.before_first].
  destruct (Ascii.eqb c sep) eqn:E; [reflexivity|].
  cbn [Str.contains_char]; rewrite Ascii.eqb_sym, E, IH; reflexivity.
Qed.

Lemma before_first_all (sep : ascii) (s : string) :
  Str.contains_char sep s = false -> Str.before_first sep s = s.
Proof.
  induction s as [|c s IH]; [reflexivity|]; cbn [Str.contains_char].
  intros H; apply orb_false_elim in H; destruct H as [H1 H2].
  cbn [Str.before_first]; rewrite Ascii.eqb_sym, H1, (IH H2); reflexivity.
Qed.

Lemma normalize_domain_dotless (domain : string) :
  Str.contains_char "." (normalize_domain domain) = false.
Proof.
  rewrite normalize_domain_short_name, dot_in_upper.
  apply before_first_has_none.
Qed.

Lemma normalize_domain_twice (domain : string) :
  normalize_domain (normalize_domain domain) = normalize_domain domain.
Proof.
  rewrite (normalize_domain_short_name (normalize_domain domain)).
  rewrite before_first_all by apply normalize_domain_dotless.
  rewrite normalize_domain_short_name; apply upper_twice.
Qed.

Lemma normalized_written (domain : string) :
  normalized (Some (normalize_domain domain)) = true.
Proof. apply String.eqb_eq, normalize_domain_twice. Qed.

(** ** What the writers keep *)

Lemma rowid_ordered_update_all {D} (set : D -> D) (t : table D) :
  rowid_ordered t -> rowid_ordered (update_all set t).
Proof. apply rowid_ordered_rewrite; reflexivity. Qed.

Lemma set_UsersTable_same (db : database) :
  set_UsersTable (UsersTable db) db = db.
Proof. destruct db; reflexivity. Qed.

Lemma add_credential_shape :
  forall (db : database) (credtype : option string) (domain : string)
         (username password : option string)
         (group_id pillaged_from : option Z),
  exists t,
    fst (add_credential db credtype domain username password group_id
           pillaged_from) = set_UsersTable t db
    /\ (rowid_ordered (UsersTable db) -> rowid_ordered t).
Proof.
  intros db credtype domain username password group_id pillaged_from.
  assert (Same : exists t, db = set_UsersTable t db
                           /\ (rowid_ordered (UsersTable db) ->
                               rowid_ordered t)).
  { exists (UsersTable db); split; [symmetry; apply set_UsersTable_same|auto]. }
  rewrite add_credential_guards.
  destruct (truthy_int group_id && _); [exact Same|].
  destruct (truthy_int pillaged_from); [exact Same|].
  cbv zeta.
  destruct (matching_credentials db _ username credtype) as [|u us].
  - eexists; split; [reflexivity|apply rowid_ordered_insert_row].
  - rewrite update_loop.
    destruct (existsb bare (u :: us)); [|exact Same].
    destruct group_id, pillaged_from; try exact Same.
    eexists; split; [reflexivity|apply rowid_ordered_update_all].
Qed.

Lemma forallb_kept {A} (p : A -> bool) (l l' : list A) :
  (forall x, In x l' -> In x l \/ p x = true) ->
  forallb p l = true -> forallb p l' = true.
Proof.
  intros H F; apply forallb_forall; intros x Hx.
  destruct (H x Hx) as [Hl|Hp]; [|exact Hp].
  rewrite forallb_forall in F; apply F, Hl.
Qed.

(** X18.  The writers keep every stored domain normalized: from a database
    whose host, credential and group domains are all in normalized form,
    [add_computer] and [add_credential] lead to such a database, whatever
    their arguments, the domain being ASCII text. *)
Theorem writers_keep_domains_normalized :
  forall db : database,
    domains_normalized db ->
    (forall ip hostname domain os smbv1 signing spooler zerologon petitpotam
            dc,
        Str.is_ascii domain = true ->
        domains_normalized
          (add_computer db ip hostname domain os smbv1 signing spooler
             zerologon petitpotam dc))
    /\ (forall credtype domain username password group_id pillaged_from,
           Str.is_ascii domain = true ->
           domains_normalized
             (fst (add_credential db credtype domain username password
                     group_id pillaged_from))).
Proof.
  intros db (Hc & Hu & Hg); split.
  - intros ip hostname domain os smbv1 signing spooler zerologon petitpotam dc
      _; repeat split; [|exact Hu|exact Hg].
    revert Hc; apply forallb_kept; intros r Hr.
    apply add_computer_domain in Hr; destruct Hr as [Hr|E]; [left; exact Hr|].
    right; rewrite E; apply normalized_written.
  - intros credtype domain username password group_id pillaged_from _.
    repeat split.
    + destruct (add_credential_shape db credtype domain username password
                  group_id pillaged_from) as (t & -> & _); exact Hc.
    + revert Hu; apply forallb_kept; intros r Hr.
      apply add_credential_domain in Hr;
        destruct Hr as [Hr|E]; [left; exact Hr|].
      right; rewrite E; apply normalized_written.
    + destruct (add_credential_shape db credtype domain username password
                  group_id pillaged_from) as (t & -> & _); exact Hg.
Qed.

Lemma writers_keep_domains_normalized_witness :
  domains_normalized
    (add_computer dc01_host (Some "10.0.0.9") (Some "DC02")
       "lab.corp.local" None None None None None None (Some true)).
Proof.
  apply (writers_keep_domains_normalized dc01_host);
    [repeat split|reflexivity].
Defined.








(** ** Host upsert: counting *)

Section AddComputerMore.
Variables (ip hostname : option string) (domain : string)
          (os : option string)
          (smbv1 signing spooler zerologon petitpotam dc : option bool).

Local Abbreviation selected := (selected ip).
Local Abbreviation merged :=
  (merged ip hostname domain os smbv1 signing spooler zerologon petitpotam dc).
Local Abbreviation add db :=
  (add_computer db ip hostname domain os smbv1 signing spooler zerologon
     petitpotam dc).

Lemma unselected_after_merge (t : table Computer.data) :
  List.filter (fun c => negb (selected c)) (List.map merged t)
  = List.filter (fun c => negb (selected c)) t.
Proof.
  induction t as [|c t IH]; simpl; [reflexivity|].
  rewrite selected_merged.
  destruct (selected c) eqn:S; simpl; [exact IH|].
  unfold merged at 1; rewrite S, IH; reflexivity.
Qed.

(** X21.  [add_computer] touches only the rows of the reported ip: the
    rows of every other ip stay as they are and in order, and the table
    grows by one row when the ip was unknown and not at all otherwise. *)
Theorem add_computer_touches_one_ip :
  forall db : database,
    rowid_ordered (ComputersTable db) ->
    List.filter (fun c => negb (sql_eq (Computer.ip (cols c)) ip))
      (ComputersTable (add db))
    = List.filter (fun c => negb (sql_eq (Computer.ip (cols c)) ip))
        (ComputersTable db)
    /\ List.length (ComputersTable (add db))
       = (List.length (ComputersTable db)
          + match hosts_with_ip db ip with [] => 1 | _ => 0 end)%nat
    /\ UsersTable (add db) = UsersTable db
    /\ AdminRelationsTable (add db) = AdminRelationsTable db.
Proof.
  intros db Hwf.
  destruct (hosts_with_ip db ip) as [|h hs] eqn:E.
  - rewrite add_computer_new by exact E; cbn [ComputersTable
      set_ComputersTable UsersTable AdminRelationsTable].
    unfold insert_row; rewrite filter_app, length_app; simpl.
    rewrite sql_eq_refl; simpl; rewrite app_nil_r; auto.
  - rewrite add_computer_existing by (auto; congruence).
    cbn [ComputersTable set_ComputersTable UsersTable AdminRelationsTable].
    rewrite length_map, Nat.add_0_r; repeat split.
    apply unselected_after_merge.
Qed.
End AddComputerMore.

Lemma add_computer_touches_one_ip_witness :
  List.length
    (ComputersTable
       (add_computer dc01_host (Some "10.0.0.5") None "corp.local" None None
          None (Some true) None None None))
  = (List.length (ComputersTable dc01_host) + 0)%nat.
Proof.
  apply (add_computer_touches_one_ip (Some "10.0.0.5") None "corp.local" None
           None None (Some true) None None None dc01_host).
  reflexivity.
Defined.

(** ** Credential upsert: what is kept *)

(** X23.  A report that matches stored credentials none of which is a bare
    placeholder writes nothing at all: a populated credential is never
    overwritten by it, whatever secret, group or source the report carries.
    It returns no id, unless it names a source and fails in the host
    lookup. *)
Theorem add_credential_never_overwrites_populated :
  forall (db : database) (credtype : option string) (domain : string)
         (username password : option string)
         (group_id pillaged_from : option Z),
    matching_credentials db (Some (normalize_domain domain)) username
      credtype <> [] ->
    (forall m,
        In m (matching_credentials db (Some (normalize_domain domain))
                username credtype) ->
        bare m = false) ->
    fst (add_credential db credtype domain username password group_id
           pillaged_from) = db
    /\ (truthy_int pillaged_from = false ->
        add_credential db credtype domain username password group_id
          pillaged_from = (db, Returned None)).
Proof.
  intros db credtype domain username password group_id pillaged_from Hne Hb.
  apply add_credential_leaves_populated; [exact Hne|].
  apply not_true_is_false; intros H; apply existsb_exists in H.
  destruct H as (m & Hm & B); rewrite (Hb m Hm) in B; discriminate.
Qed.

Lemma add_credential_never_overwrites_populated_witness :
  add_credential bob_placeholder_and_alice (Some "PLAINTEXT") "corp.local"
    (Some "Alice") (Some "Winter2024") None None
  = (bob_placeholder_and_alice, Returned None).
Proof.
  destruct (add_credential_never_overwrites_populated
              bob_placeholder_and_alice (Some "PLAINTEXT") "corp.local"
              (Some "Alice") (Some "Winter2024") None None) as [_ H].
  - discriminate.
  - intros m [<-|[]]; reflexivity.
  - apply H; reflexivity.
Defined.

(** ** Lookups by id *)

(** X25.  In the read accessors that run their select through [execute]
    the id comes first and is exact: on tables in rowid order, the id of a
    stored row is valid, and given as the filter term it returns that row
    and no other from [get_credentials] and [get_shares], whatever the
    other arguments are. *)
Theorem lookup_by_id_returns_the_row :
  forall db : database,
    ordered db ->
    (forall u cred_type, In u (UsersTable db) ->
        is_user_valid db (VInt (id u)) = true
        /\ is_credential_valid db (VInt (id u)) = true
        /\ get_credentials db (VInt (id u)) cred_type = [u])
    /\ (forall s, In s (SharesTable db) ->
           is_share_valid db (VInt (id s)) = true
           /\ get_shares db (VInt (id s)) = [s])
    /\ (forall g, In g (GroupsTable db) ->
           is_group_valid db (VInt (id g)) = true).
Proof.
  intros db (_ & Hu & Hg & Hs & _); repeat apply conj.
  - intros u cred_type Hin.
    assert (V : is_user_valid db (VInt (id u)) = true).
    { unfold is_user_valid.
      rewrite all_filter1, (filter_id_exact _ u Hu Hin); reflexivity. }
    split; [exact V|]; rewrite is_credential_valid_eq; split; [exact V|].
    unfold get_credentials; rewrite is_credential_valid_eq, V, all_filter1.
    apply filter_id_exact; assumption.
  - intros s Hin.
    assert (V : is_share_valid db (VInt (id s)) = true).
    { unfold is_share_valid.
      rewrite all_filter1, (filter_id_exact _ s Hs Hin); reflexivity. }
    split; [exact V|].
    unfold get_shares; rewrite V, all_filter1.
    apply filter_id_exact; assumption.
  - intros g Hin; unfold is_group_valid, Query.first.
    rewrite all_filter1, (filter_id_exact _ g Hg Hin); reflexivity.
Qed.

Lemma lookup_by_id_returns_the_row_witness :
  get_credentials bob_placeholder_alice_and_carol (VInt 2) (Some "hash")
  = [Row 2 (credential "CORP" "alice" "S3cret" "plaintext")].
Proof.
  destruct (lookup_by_id_returns_the_row bob_placeholder_alice_and_carol)
    as (H & _); [repeat split|].
  apply (H (Row 2 (credential "CORP" "alice" "S3cret" "plaintext"))).
  right; left; reflexivity.
Defined.
